(** * prettier-move: the common-node printer ([cst/Common.ts])

    A shallow embedding of the node-kind dispatch and of the print
    procedures of [src/cst/Common.ts], together with the properties the
    specification states about them.

    Conventions of the embedding.
    - A JavaScript exception is an explicit outcome: every procedure returns
      a [Result], and [Throw] propagates through [bind] the way an uncaught
      exception unwinds the callers.
    - A string used as a document is [Text s], an array of documents is
      [Concat ds], and the builders of [prettier/doc] are the constructors of
      [Doc].
    - [path.node.previousSibling] and [path.node.nextSibling] are read from
      the position of the node among the children of its parent, which the
      path records. *)

From Stdlib Require Import String List Bool Arith ZArith Lia.
Import ListNotations.
Open Scope string_scope.

Set Implicit Arguments.
Set Warnings "-register-all".

(** ** Outcomes *)

(** The only exception the procedures can raise themselves is the
    [TypeError] of a property read on [null] or [undefined].  [Thrown] is an
    exception of the callback or of a helper, told apart by its message. *)
Inductive JsError : Type :=
| TypeError
| Thrown (message : string).

Inductive Result (A : Type) : Type :=
| Ok (a : A)
| Throw (e : JsError).

Arguments Ok {A} a.
Arguments Throw {A} e.

Definition bind {A B : Type} (c : Result A) (k : A -> Result B) : Result B :=
  match c with
  | Ok a => k a
  | Throw e => Throw e
  end.

Notation "x <- c ;; k" := (bind c (fun x => k))
  (at level 61, c at next level, right associativity).

(** [xs.map(f)] for a callback that may throw: left to right, the first
    exception aborts the traversal. *)
Fixpoint mapM {A B : Type} (f : A -> Result B) (xs : list A) : Result (list B) :=
  match xs with
  | [] => Ok []
  | x :: rest =>
      y <- f x ;;
      ys <- mapM f rest ;;
      Ok (y :: ys)
  end.

(** ** Syntax nodes *)

(** Modelled from the spec: the [Node] class lives in the package's tree
    module, outside the files verified here.  A node has a kind, its
    raw source text, its ordered children, and the source rows it starts and
    ends on.  [significant] marks a node that belongs to the
    formatting-significant view of the children of its parent
    ([nonFormattingChildren]). *)
Inductive Node : Type :=
  mkNode {
    type : string;
    text : string;
    significant : bool;
    startRow : nat;
    endRow : nat;
    children : list Node
  }.

(** [node.child(i)]: the raw child at an index, or [null]. *)
Definition child (n : Node) (i : nat) : option Node :=
  nth_error (children n) i.

(** [node.nonFormattingChildren]. *)
Definition nonFormattingChildren (n : Node) : list Node :=
  filter significant (children n).

(** A leaf token, as the parser produces them for punctuation and keywords:
    the kind of an anonymous token is its own text. *)
Definition token (s : string) : Node :=
  mkNode s s false 0 0 [].

(** ** Paths *)

(** Modelled from the spec: [AstPath] belongs to the host framework.  A path
    designates the value the walk currently stands on.  [node] is [None] when
    the walk was sent to an index that holds nothing ([undefined]);
    [preceding] lists the siblings before the node, nearest first,
    [following] those after it, and [ancestors] the enclosing nodes, nearest
    first. *)
Record AstPath : Type :=
  mkPath {
    node : option Node;
    preceding : list Node;
    following : list Node;
    ancestors : list Node
  }.

(** [path.node], whose properties the procedures read at once. *)
Definition path_node (p : AstPath) : Result Node :=
  match node p with
  | Some n => Ok n
  | None => Throw TypeError
  end.

Definition previousSibling (p : AstPath) : option Node := hd_error (preceding p).
Definition nextSibling (p : AstPath) : option Node := hd_error (following p).

(** [x?.type == s] for an optional node [x]. *)
Definition typeIs (o : option Node) (s : string) : bool :=
  match o with
  | Some n => String.eqb (type n) s
  | None => false
  end.

(** The path of the root of a tree. *)
Definition rootPath (n : Node) : AstPath := mkPath (Some n) [] [] [].

(** The paths of the elements of a child array, each knowing its siblings. *)
Fixpoint zipPaths (anc before after : list Node) : list AstPath :=
  match after with
  | [] => []
  | c :: rest => mkPath (Some c) before rest anc :: zipPaths anc (c :: before) rest
  end.

Definition childPaths (p : AstPath) (n : Node) : list AstPath :=
  zipPaths (n :: ancestors p) [] (children n).

Definition significantPath (p : AstPath) : bool :=
  match node p with
  | Some n => significant n
  | None => false
  end.

(** The two array-valued properties the procedures walk into. *)
Inductive ChildrenProperty : Type :=
| prop_children
| prop_nonFormattingChildren.

Definition select (prop : ChildrenProperty) (p : AstPath) (n : Node) : list AstPath :=
  match prop with
  | prop_children => childPaths p n
  | prop_nonFormattingChildren => filter significantPath (childPaths p n)
  end.

(** Where [path.call(f, prop, i)] stands when the array has no index [i]. *)
Definition undefinedPath (p : AstPath) (n : Node) : AstPath :=
  mkPath None [] [] (n :: ancestors p).

(** [path.map(f, prop)]. *)
Definition path_map {A : Type} (f : AstPath -> Result A) (p : AstPath)
  (prop : ChildrenProperty) : Result (list A) :=
  n <- path_node p ;;
  mapM f (select prop p n).

(** [path.call(f, prop, i)]: the callback always runs, on an undefined node
    when the index is out of range. *)
Definition path_call {A : Type} (f : AstPath -> Result A) (p : AstPath)
  (prop : ChildrenProperty) (i : nat) : Result A :=
  n <- path_node p ;;
  f (nth i (select prop p n) (undefinedPath p n)).

(** ** Documents *)

(** Modelled from the spec: the document algebra of the external renderer.
    [Undefined] stands for the JavaScript value [undefined] in a document
    position (an array read past its end); it is not a document the renderer
    accepts. *)
Inductive Doc : Type :=
| Text (s : string)
| Concat (ds : list Doc)
| Group (contents : Doc) (shouldBreak : bool)
| Indent (contents : Doc)
| Line
| SoftLine
| HardLine
| IfBreak (whenBroken whenFlat : Doc)
| Join (separator : Doc) (ds : list Doc)
| Undefined.

(** The builders of [prettier/doc] that [Common.ts] destructures. *)
Module builders.
(** [group(contents)] and [group(contents, { shouldBreak })]. *)
Definition group (contents : Doc) : Doc := Group contents false.
Definition groupWith (contents : Doc) (shouldBreak : bool) : Doc :=
  Group contents shouldBreak.
Definition indent (contents : Doc) : Doc := Indent contents.
Definition softline : Doc := SoftLine.
Definition line : Doc := Line.
(** [ifBreak(breakContents)]: the flat contents default to the empty
    string. *)
Definition ifBreak (breakContents : Doc) : Doc := IfBreak breakContents (Text "").
Definition join (separator : Doc) (docs : list Doc) : Doc := Join separator docs.
End builders.
Import builders.

(** [docs[i]] on a JavaScript array. *)
Definition at_index (docs : list Doc) (i : nat) : Doc := nth i docs Undefined.

(** Modelled from the spec: [ParserOptions] is the host's option record; the
    procedures only hand it on to the list helper. *)
Record ParserOptions : Type :=
  mkOptions {
    printWidth : nat;
    tabWidth : nat;
    useTabs : bool
  }.

Definition printFn : Type := AstPath -> Result Doc.
Definition treeFn : Type := AstPath -> ParserOptions -> printFn -> Result Doc.

(** ** The helpers imported from [../utilities] *)

Module utilities.

(** The argument object of [list({ path, print, options, open, close,
    addWhitespace, skipChildren })]; a property the caller leaves out is
    [None]. *)
Record ListArgs : Type :=
  mkListArgs {
    path : AstPath;
    print : printFn;
    options : ParserOptions;
    open : string;
    close : string;
    addWhitespace : option bool;
    skipChildren : option nat
  }.

(** The list-formatting helper and the predicate [shouldBreakFirstChild]
    are outside the files verified here; the procedures are stated for any
    implementation of them. *)
Class Helpers : Type :=
  { list : ListArgs -> Result Doc;
    shouldBreakFirstChild : AstPath -> bool }.

End utilities.

(** ** The node kinds of [Common.ts] *)

(** [enum Common]: nodes which are used across multiple files. *)
Inductive Common : Type :=
| PrimitiveType
| VariableIdentifier
| ModuleAccess
| Identifier
| RefType
| FunctionType
| FunctionTypeParameters
| BinaryOperator
| FieldIdentifier
| BlockIdentifier
| Ability
| TupleType
| Annotation
| AnnotationItem
| AnnotationList
| AnnotationExpression
| BindUnpack
| BindFields
| BindField
| BindList
| BindNamedFields
| BindPositionalFields
| BindVar
| LambdaBindings
| Label
| Alias
| UnaryOperator
| FieldInitializeList
| ExpressionField.

(** The string each member of the enum stands for. *)
Definition Common_value (c : Common) : string :=
  match c with
  | PrimitiveType => "primitive_type"
  | VariableIdentifier => "variable_identifier"
  | ModuleAccess => "module_access"
  | Identifier => "identifier"
  | RefType => "ref_type"
  | FunctionType => "function_type"
  | FunctionTypeParameters => "function_type_parameters"
  | BinaryOperator => "binary_operator"
  | FieldIdentifier => "field_identifier"
  | BlockIdentifier => "block_identifier"
  | Ability => "ability"
  | TupleType => "tuple_type"
  | Annotation => "annotation"
  | AnnotationItem => "annotation_item"
  | AnnotationList => "annotation_list"
  | AnnotationExpression => "annotation_expr"
  | BindUnpack => "bind_unpack"
  | BindFields => "bind_fields"
  | BindField => "bind_field"
  | BindList => "bind_list"
  | BindNamedFields => "bind_named_fields"
  | BindPositionalFields => "bind_positional_fields"
  | BindVar => "bind_var"
  | LambdaBindings => "lambda_bindings"
  | Label => "label"
  | Alias => "alias"
  | UnaryOperator => "unary_op"
  | FieldInitializeList => "field_initialize_list"
  | ExpressionField => "exp_field"
  end.

(** ** The print procedures *)

Section PrintProcedures.

Context {helpers : utilities.Helpers}.

(** The argument object of a call of the list helper. *)
Definition listArgs (path : AstPath) (print : printFn) (options : ParserOptions)
  (open close : string) (addWhitespace : option bool) (skipChildren : option nat)
  : utilities.ListArgs :=
  utilities.mkListArgs path print options open close addWhitespace skipChildren.

(** Print [primitive_type] node. *)
Definition printPrimitiveType : treeFn := fun path options print =>
  n <- path_node path ;;
  Ok (Text (text n)).

(** Print [variable_identifier] node. *)
Definition printVariableIdentifier : treeFn := fun path options print =>
  n <- path_node path ;;
  Ok (Text (text n)).

(** Print [module_access] node. *)
Definition printModuleAccess : treeFn := fun path options print =>
  docs <- path_map print path prop_children ;;
  Ok (Concat docs).

(** Print [identifier] node. *)
Definition printIdentifier : treeFn := fun path options print =>
  n <- path_node path ;;
  Ok (Text (text n)).

(** Print [ref_type] node. *)
Definition printRefType : treeFn := fun path options print =>
  n <- path_node path ;;
  ref <- match child n 0 with
         | Some c => Ok (if String.eqb (text c) "&" then [Text "&"] else [Text "&mut "])
         | None => Throw TypeError
         end ;;
  ty <- path_call print path prop_nonFormattingChildren 0 ;;
  Ok (group (Concat (ref ++ [ty]))).

(** Print [binary_operator] node. *)
Definition printBinaryOperator : treeFn := fun path options print =>
  n <- path_node path ;;
  Ok (Text (text n)).

(** Print [field_identifier] node. *)
Definition printFieldIdentifier : treeFn := fun path options print =>
  n <- path_node path ;;
  Ok (Text (text n)).

(** Print [annotation] node. *)
Definition printAnnotation : treeFn := fun path options print =>
  items <- utilities.list (listArgs path print options "[" "]" None None) ;;
  Ok (group (Concat [Text "#"; items])).

(** Print [annotation_item] node. *)
Definition printAnnotationItem : treeFn := fun path options print =>
  docs <- path_map print path prop_nonFormattingChildren ;;
  Ok (Concat docs).

Definition printAnnotationList : treeFn := fun path options print =>
  first <- path_call print path prop_nonFormattingChildren 0 ;;
  rest <- utilities.list (listArgs path print options "(" ")" None (Some 1)) ;;
  Ok (Concat [first; rest]).

(** Print [annotation_expr] node; allows [::module::Expression] in
    annotations. *)
Definition printAnnotationExpression : treeFn := fun path options print =>
  docs <- path_map
            (fun path =>
               n <- path_node path ;;
               if String.eqb (type n) "module_access"
                  && typeIs (previousSibling path) "::"
               then (d <- print path ;; Ok (Concat [Text "::"; d]))
               else print path)
            path prop_nonFormattingChildren ;;
  Ok (join (Text " = ") docs).

(** Print [ability] node. *)
Definition printAbility : treeFn := fun path options print =>
  n <- path_node path ;;
  Ok (Text (text n)).

(** Print [tuple_type] node. *)
Definition printTupleType : treeFn := fun path options print =>
  docs <- path_map print path prop_nonFormattingChildren ;;
  Ok (groupWith
        (Concat
           [ Text "(";
             indent softline;
             indent (join (Concat [Text ","; line]) docs);
             ifBreak (Text ",");
             softline;
             Text ")" ])
        false).

(** Print [bind_unpack] node. *)
Definition printBindUnpack : treeFn := fun path options print =>
  docs <- path_map print path prop_nonFormattingChildren ;;
  Ok (Concat docs).

(** Print [bind_fields] node: a choice node between [bind_named_fields] and
    [bind_positional_fields]. *)
Definition printBindFields : treeFn := fun path options print =>
  path_call print path prop_nonFormattingChildren 0.

(** Print [bind_field] node. *)
Definition printBindField : treeFn := fun path options print =>
  n <- path_node path ;;
  if typeIs (child n 0) ".."
  then Ok (Text "..")
  else
    docs <- path_map
              (fun path =>
                 _ <- path_node path ;;
                 if typeIs (previousSibling path) "mut"
                 then (d <- print path ;; Ok (Concat [Text "mut "; d]))
                 else print path)
              path prop_nonFormattingChildren ;;
    Ok (join (Text ": ") docs).

(** Print [bind_list] node. *)
Definition printBindList : treeFn := fun path options print =>
  n <- path_node path ;;
  if Nat.eqb (length (nonFormattingChildren n)) 1
  then
    docs <- path_map print path prop_nonFormattingChildren ;;
    Ok (join (Text " ") docs)
  else
    items <- utilities.list (listArgs path print options "(" ")" None None) ;;
    Ok (group items).

(** Print [bind_named_fields] node. *)
Definition printBindNamedFields : treeFn := fun path options print =>
  items <- utilities.list (listArgs path print options "{" "}" (Some true) None) ;;
  Ok (Concat [Text " "; groupWith items (utilities.shouldBreakFirstChild path)]).

(** Print [bind_positional_fields] node. *)
Definition printBindPositionalFields : treeFn := fun path options print =>
  items <- utilities.list (listArgs path print options "(" ")" None None) ;;
  Ok (groupWith items (utilities.shouldBreakFirstChild path)).

(** Print [bind_var] node.  If it has [mut] before the value, we print it;
    [mut] is not a named child. *)
Definition printBindVar : treeFn := fun path options print =>
  n <- path_node path ;;
  let isMut := typeIs (previousSibling path) "mut" in
  d <- path_call print path prop_nonFormattingChildren 0 ;;
  Ok (Concat [(if isMut then Concat [Text "mut "] else Text ""); d]).

(** Print [alias] node. *)
Definition printAlias : treeFn := fun path options print =>
  d <- path_call print path prop_nonFormattingChildren 0 ;;
  Ok (Concat [Text "as "; d]).

(** Print [block_identifier] node. *)
Definition printBlockIdentifier : treeFn := fun path options print =>
  path_call print path prop_nonFormattingChildren 0.

(** Print [label] node. *)
Definition printLabel : treeFn := fun path options print =>
  n <- path_node path ;;
  if typeIs (nextSibling path) ":"
  then Ok (Concat [Text (text n); Text ":"])
  else Ok (Text (text n)).

(** Print [unary_op] node. *)
Definition printUnaryOperator : treeFn := fun path options print =>
  n <- path_node path ;;
  Ok (Text (text n)).

(** Print [field_initialize_list] node. *)
Definition printFieldInitializeList : treeFn := fun path options print =>
  items <- utilities.list (listArgs path print options "{" "}" (Some true) None) ;;
  Ok (Concat [Text " "; groupWith items (utilities.shouldBreakFirstChild path)]).

(** Print [exp_field] node. *)
Definition printExpressionField : treeFn := fun path options print =>
  children <- path_map print path prop_nonFormattingChildren ;;
  if Nat.eqb (length children) 1
  then Ok (at_index children 0)
  else Ok (group (Concat [at_index children 0; Text ": "; at_index children 1])).

(** Print [lambda_bindings] node. *)
Definition printLambdaBindings : treeFn := fun path options print =>
  items <- utilities.list (listArgs path print options "|" "|" None None) ;;
  Ok (group items).

(** Print [function_type] node. *)
Definition printFunctionType : treeFn := fun path options print =>
  children <- path_map print path prop_nonFormattingChildren ;;
  if Nat.eqb (length children) 0
  then Ok (Text "||")
  else if Nat.eqb (length children) 1
  then Ok (at_index children 0)
  else Ok (join (Text " -> ") children).

(** Print [function_type_parameters] node. *)
Definition printFunctionTypeParameters : treeFn := fun path options print =>
  items <- utilities.list (listArgs path print options "|" "|" None None) ;;
  Ok (group items).

(** [case c:] of the dispatch. *)
Definition isCase (ty : string) (c : Common) : bool := String.eqb ty (Common_value c).

(** Creates a callback function to print common nodes. *)
Definition default (path : AstPath) : Result (option treeFn) :=
  n <- path_node path ;;
  let ty := type n in
  Ok (if isCase ty PrimitiveType then Some printPrimitiveType
      else if isCase ty VariableIdentifier then Some printVariableIdentifier
      else if isCase ty ModuleAccess then Some printModuleAccess
      else if isCase ty Identifier then Some printIdentifier
      else if isCase ty RefType then Some printRefType
      else if isCase ty FunctionType then Some printFunctionType
      else if isCase ty FunctionTypeParameters then Some printFunctionTypeParameters
      else if isCase ty BinaryOperator then Some printBinaryOperator
      else if isCase ty FieldIdentifier then Some printFieldIdentifier
      else if isCase ty Ability then Some printAbility
      else if isCase ty TupleType then Some printTupleType
      else if isCase ty Annotation then Some printAnnotation
      else if isCase ty AnnotationItem then Some printAnnotationItem
      else if isCase ty AnnotationList then Some printAnnotationList
      else if isCase ty AnnotationExpression then Some printAnnotationExpression
      else if isCase ty BindUnpack then Some printBindUnpack
      else if isCase ty BindFields then Some printBindFields
      else if isCase ty BindField then Some printBindField
      else if isCase ty BindList then Some printBindList
      else if isCase ty BindNamedFields then Some printBindNamedFields
      else if isCase ty BindPositionalFields then Some printBindPositionalFields
      else if isCase ty BindVar then Some printBindVar
      else if isCase ty Label then Some printLabel
      else if isCase ty Alias then Some printAlias
      else if isCase ty BlockIdentifier then Some printBlockIdentifier
      else if isCase ty UnaryOperator then Some printUnaryOperator
      else if isCase ty FieldInitializeList then Some printFieldInitializeList
      else if isCase ty ExpressionField then Some printExpressionField
      else if isCase ty LambdaBindings then Some printLambdaBindings
      else None).

End PrintProcedures.

(** ** Notions used to state the properties *)

(** The formatting-significant children of the node a path stands on, each as
    the path the walk visits it on. *)
Definition significantChildren (path : AstPath) (n : Node) : list AstPath :=
  select prop_nonFormattingChildren path n.

(** What [path.call(print, 'nonFormattingChildren', 0)] walks to. *)
Definition firstSignificantChild (path : AstPath) (n : Node) : AstPath :=
  nth 0 (significantChildren path n) (undefinedPath path n).

(** The kinds whose node prints as its own text. *)
Definition leafKinds : list Common :=
  [ PrimitiveType; VariableIdentifier; Identifier; BinaryOperator;
    FieldIdentifier; Ability; UnaryOperator ].

(** The document [bind_field] places in its join for the element [c] whose
    own document is [d]. *)
Definition boundValueDoc (c : AstPath) (d : Doc) : Doc :=
  if typeIs (previousSibling c) "mut" then Concat [Text "mut "; d] else d.

(** Modelled from the spec: the text of a document laid out flat, every group
    on one line.  A line is a space, a soft line is nothing, a conditional
    fragment shows its flat side, a join intersperses its separator.  A hard
    line always breaks; [Undefined] has no layout. *)
Fixpoint flatText (d : Doc) : option string :=
  match d with
  | Text s => Some s
  | Concat ds =>
      (fix all (ds : list Doc) : option string :=
         match ds with
         | [] => Some ""
         | d :: rest =>
             match flatText d, all rest with
             | Some a, Some b => Some (a ++ b)
             | _, _ => None
             end
         end) ds
  | Group contents _ => flatText contents
  | Indent contents => flatText contents
  | Line => Some " "
  | SoftLine => Some ""
  | HardLine => None
  | IfBreak _ whenFlat => flatText whenFlat
  | Join separator ds =>
      match flatText separator with
      | Some sep =>
          (fix all (ds : list Doc) : option string :=
             match ds with
             | [] => Some ""
             | d :: rest =>
                 match rest with
                 | [] => flatText d
                 | _ :: _ =>
                     match flatText d, all rest with
                     | Some a, Some b => Some (a ++ sep ++ b)
                     | _, _ => None
                     end
                 end
             end) ds
      | None => None
      end
  | Undefined => None
  end.

(** The flat text of an outcome. *)
Definition flatTextOf (r : Result Doc) : option string :=
  match r with
  | Ok d => flatText d
  | Throw _ => None
  end.

(** Modelled from the spec: the list-formatting helper, as far as the spec
    describes it: the documents of the formatting-significant children after
    the first [skipChildren], comma-joined between the delimiters, with
    interior padding on request and a trailing comma when broken. *)
Definition specList (args : utilities.ListArgs) : Result Doc :=
  let pad := match utilities.addWhitespace args with
             | Some true => line
             | _ => softline
             end in
  let skip := match utilities.skipChildren args with
              | Some k => k
              | None => 0
              end in
  docs <- path_map (utilities.print args) (utilities.path args)
            prop_nonFormattingChildren ;;
  Ok (Concat
        [ Text (utilities.open args);
          indent pad;
          indent (join (Concat [Text ","; line]) (skipn skip docs));
          ifBreak (Text ",");
          pad;
          Text (utilities.close args) ]).

(** Modelled from the spec: [shouldBreakFirstChild] is defined in the
    utilities module, outside the files verified here.  The spec gives its
    rule twice: the first child already spans several source lines, and the
    first field starts on its own source line.  The first child of a list is
    its first formatting-significant child, the opening delimiter being a
    token; the model holds when that child starts on a row other than the
    one the node starts on, or ends on another row than it starts on. *)
Definition specShouldBreakFirstChild (path : AstPath) : bool :=
  match node path with
  | Some n =>
      match nonFormattingChildren n with
      | c :: _ =>
          negb (Nat.eqb (startRow c) (startRow n))
          || negb (Nat.eqb (startRow c) (endRow c))
      | [] => false
      end
  | None => false
  end.

Definition specHelpers : utilities.Helpers :=
  {| utilities.list := specList;
     utilities.shouldBreakFirstChild := specShouldBreakFirstChild |}.

(** Modelled from the spec: the tree walk of the surrounding framework.  It
    asks the registry for a procedure and hands itself on as the callback; a
    kind the registry does not own is printed by the caller's [fallback].
    [fuel] bounds the depth of the walk. *)
Fixpoint treeWalk (helpers : utilities.Helpers) (fallback : treeFn)
  (options : ParserOptions) (fuel : nat) (path : AstPath) : Result Doc :=
  match fuel with
  | O => Throw TypeError
  | S fuel' =>
      found <- default path ;;
      match found with
      | Some procedure => procedure path options (treeWalk helpers fallback options fuel')
      | None => fallback path options (treeWalk helpers fallback options fuel')
      end
  end.

(** A fallback that prints the raw text of the node. *)
Definition printText : treeFn := fun path options print =>
  n <- path_node path ;;
  Ok (Text (text n)).

Definition defaultOptions : ParserOptions := mkOptions 100 4 true.

(** [print] of the walk with the spec's helper and the text fallback. *)
Definition walk : printFn := treeWalk specHelpers printText defaultOptions 16.

(** ** Sample trees *)

Definition leaf (kind txt : string) : Node := mkNode kind txt true 0 0 [].
Definition branch (kind txt : string) (cs : list Node) : Node :=
  mkNode kind txt true 0 0 cs.

(** [&mut T]. *)
Definition sampleRefMut : Node :=
  branch "ref_type" "&mut T" [token "&mut"; leaf "identifier" "T"].

(** [&T]. *)
Definition sampleRef : Node :=
  branch "ref_type" "&T" [token "&"; leaf "identifier" "T"].

(** [||], [|a|] seen through its parameter list, and [|a| -> u8]. *)
Definition sampleFunEmpty : Node :=
  branch "function_type" "||" [token "||"].
Definition sampleFunOne : Node :=
  branch "function_type" "x" [leaf "identifier" "x"].
Definition sampleFunTwo : Node :=
  branch "function_type" "x -> u8"
    [leaf "identifier" "x"; token "->"; leaf "primitive_type" "u8"].

(** [(u8, bool)]. *)
Definition sampleTuple : Node :=
  branch "tuple_type" "(u8, bool)"
    [token "("; leaf "primitive_type" "u8"; token ",";
     leaf "primitive_type" "bool"; token ")"].

(** [mut x] inside a bind list, and [x] alone. *)
Definition sampleBindVar : Node :=
  branch "bind_var" "x" [leaf "variable_identifier" "x"].
Definition sampleBindListMut : Node :=
  branch "bind_list" "mut x" [token "mut"; sampleBindVar].
Definition pathBindVarMut : AstPath :=
  mkPath (Some sampleBindVar) [token "mut"] [] [sampleBindListMut].

(** [f: mut x], [f: x], [..] and a node that starts with [..] but goes on. *)
Definition sampleBindField : Node :=
  branch "bind_field" "f: mut x"
    [leaf "field_identifier" "f"; token ":"; token "mut";
     leaf "variable_identifier" "x"].
Definition sampleBindFieldPlain : Node :=
  branch "bind_field" "f: x"
    [leaf "field_identifier" "f"; token ":"; leaf "variable_identifier" "x"].
Definition sampleRest : Node :=
  branch "bind_field" ".." [token ".."].
Definition sampleRestThenMore : Node :=
  branch "bind_field" ".. x" [token ".."; leaf "identifier" "x"].

(** [S { f: mut x }] nested two levels deep. *)
Definition sampleUnpack : Node :=
  branch "bind_unpack" "S { f: mut x }"
    [ leaf "identifier" "S";
      branch "bind_fields" "{ f: mut x }"
        [ branch "bind_named_fields" "{ f: mut x }"
            [token "{"; sampleBindField; token "}"] ] ].



(** [exp_field] with three formatting-significant children. *)
Definition sampleExpFieldThree : Node :=
  branch "exp_field" "a: b c"
    [leaf "field_identifier" "a"; token ":"; leaf "identifier" "b";
     leaf "identifier" "c"].

(** ** Further notions and sample trees *)

(** The document [annotation_expr] places in its join for the element [c]
    whose own document is [d]. *)
Definition annotationOperandDoc (c : AstPath) (d : Doc) : Doc :=
  if typeIs (node c) "module_access" && typeIs (previousSibling c) "::"
  then Concat [Text "::"; d]
  else d.

(** The procedure written under each [case] of the dispatch. *)
Definition procedureFor {helpers : utilities.Helpers} (kind : Common) : treeFn :=
  match kind with
  | PrimitiveType => printPrimitiveType
  | VariableIdentifier => printVariableIdentifier
  | ModuleAccess => printModuleAccess
  | Identifier => printIdentifier
  | RefType => printRefType
  | FunctionType => printFunctionType
  | FunctionTypeParameters => printFunctionTypeParameters
  | BinaryOperator => printBinaryOperator
  | FieldIdentifier => printFieldIdentifier
  | BlockIdentifier => printBlockIdentifier
  | Ability => printAbility
  | TupleType => printTupleType
  | Annotation => printAnnotation
  | AnnotationItem => printAnnotationItem
  | AnnotationList => printAnnotationList
  | AnnotationExpression => printAnnotationExpression
  | BindUnpack => printBindUnpack
  | BindFields => printBindFields
  | BindField => printBindField
  | BindList => printBindList
  | BindNamedFields => printBindNamedFields
  | BindPositionalFields => printBindPositionalFields
  | BindVar => printBindVar
  | LambdaBindings => printLambdaBindings
  | Label => printLabel
  | Alias => printAlias
  | UnaryOperator => printUnaryOperator
  | FieldInitializeList => printFieldInitializeList
  | ExpressionField => printExpressionField
  end.

(** A helper that always throws, and a callback that throws on the nodes
    whose text is [bad] and walks the others. *)
Definition throwingHelpers : utilities.Helpers :=
  {| utilities.list := fun _ => Throw TypeError;
     utilities.shouldBreakFirstChild := fun _ => false |}.

(** A helper and a callback that throw an exception of their own. *)
Definition failingHelpers (message : string) : utilities.Helpers :=
  {| utilities.list := fun _ => Throw (Thrown message);
     utilities.shouldBreakFirstChild := fun _ => false |}.

Definition failingPrint (message : string) : printFn :=
  fun _ => Throw (Thrown message).

Definition walkUnless (bad : string) : printFn := fun path =>
  match node path with
  | Some n => if String.eqb (text n) bad then Throw TypeError else walk path
  | None => Throw TypeError
  end.

(** [a -> b -> c] as a function type with three children. *)
Definition sampleFunThree : Node :=
  branch "function_type" "a -> b -> c"
    [leaf "identifier" "a"; token "->"; leaf "identifier" "b"; token "->";
     leaf "identifier" "c"].

(** [exp_field] without children, with one ([x]) and with two ([x: y]). *)
Definition sampleExpFieldNone : Node := branch "exp_field" "" [].
Definition sampleExpFieldOne : Node :=
  branch "exp_field" "x" [leaf "field_identifier" "x"].
Definition sampleExpFieldTwo : Node :=
  branch "exp_field" "x: y"
    [leaf "field_identifier" "x"; token ":"; leaf "identifier" "y"].

(** A [ref_type] node without children. *)
Definition sampleRefEmpty : Node := branch "ref_type" "" [].

(** [x] as a bind list of one binding, and [(a, b)]. *)
Definition sampleBindListOne : Node :=
  branch "bind_list" "x" [sampleBindVar].
Definition sampleBindListPair : Node :=
  branch "bind_list" "(a, b)"
    [token "("; leaf "variable_identifier" "a"; token ",";
     leaf "variable_identifier" "b"; token ")"].

(** [std::vector] with its separator as an anonymous child. *)
Definition sampleModuleAccess : Node :=
  branch "module_access" "std::vector"
    [leaf "identifier" "std"; token "::"; leaf "identifier" "vector"].

(** [name = ::std::vector]: the leading separator is a sibling of the
    [module_access] node. *)
Definition sampleAnnotationExpr : Node :=
  branch "annotation_expr" "name = ::std::vector"
    [leaf "identifier" "name"; token "="; token "::"; sampleModuleAccess].

(** The label of [loop_a: loop { }] and the same label in [break loop_a]. *)
Definition sampleLabel : Node := leaf "label" "loop_a".
Definition pathLabelBeforeColon : AstPath :=
  mkPath (Some sampleLabel) [] [token ":"; token "loop"] [].
Definition pathLabelInBreak : AstPath :=
  mkPath (Some sampleLabel) [token "break"] [] [].

(** [as T]. *)
Definition sampleAlias : Node :=
  branch "alias" "as T" [token "as"; leaf "identifier" "T"].

(** * The default features of the transaction block builder

    The second source file: the plugin interface, the default plugin
    [DefaultTransactionBlockFeatures] and the helper [chunk].  An [async]
    method is a transformer of the block data it is given: it ends resolved
    or rejected, and in both cases leaves the block data as it last wrote
    it.  The awaits of a method follow one another, and nothing else touches
    the block data in between. *)

Module TransactionBlock.

(** What a method can throw: the errors thrown in this file, each with the
    values its message quotes, the [RangeError] of an array of invalid
    length, and [Foreign] for whatever a plugin, the client or a library
    call throws. *)
Inductive Failure : Type :=
| RangeError
| DryRunFailed (error : option string)
| PaymentObjectsExceedMaximum (maxGasObjects : Z)
| NoValidGasCoins
| InputTooLarge (index : nat) (maxPureArgumentSize : Z) (length : nat)
| Foreign (message : string).

Inductive Try (A : Type) : Type :=
| Done (a : A)
| Failed (f : Failure).

Arguments Done {A} a.
Arguments Failed {A} f.

(** The maximum objects that can be fetched at once using multiGetObjects. *)
Definition MAX_OBJECTS_PER_FETCH : nat := 50.

(** An amount of gas (in gas units) that is added to transactions as an
    overhead to ensure transactions do not fail. *)
Definition GAS_SAFE_OVERHEAD : Z := 1000.

(** [arr.slice(start, stop)] for indices that are not negative. *)
Definition slice {T : Type} (arr : list T) (start stop : nat) : list T :=
  firstn (stop - start) (skipn start arr).

(** [Math.ceil(a / b)] for a divisor that is not zero. *)
Definition ceilOfQuotient (a b : nat) : nat :=
  if Nat.eqb (a mod b) 0 then a / b else S (a / b).

(** [chunk]: the array cut into consecutive slices of [size] elements.  A
    [size] of zero makes the requested length [NaN] on an empty array, which
    gives no slice, and [Infinity] on any other, which is not a length an
    array can have. *)
Definition chunk {T : Type} (arr : list T) (size : nat) : Try (list (list T)) :=
  match size with
  | O =>
      match arr with
      | [] => Done []
      | _ :: _ => Failed RangeError
      end
  | S _ =>
      Done (map (fun i => slice arr (i * size) (i * size + size))
              (seq 0 (ceilOfQuotient (length arr) size)))
  end.

(** What the file takes from the language and from the modules it imports:
    the values a price, a budget and a gas cost can be, with their
    truthiness, [BigInt(v)] and [String(n)]; the inputs of a block with the
    length of [input.Pure] and the object id of
    [input.Object?.ImmOrOwnedObject], where they are set; object references
    and [parse(ObjectRef, { objectId, digest, version })]; the bytes of a
    built block; and the coin type [SUI_TYPE_ARG]. *)
Class Host : Type :=
  { JsValue : Type;
    truthy : JsValue -> bool;
    BigInt : JsValue -> Try Z;
    String_ : Z -> JsValue;
    CallArg : Type;
    pureLength : CallArg -> option nat;
    immOrOwnedObjectId : CallArg -> option string;
    ObjectRef : Type;
    parseObjectRef : string -> string -> string -> Try ObjectRef;
    Bytes : Type;
    SUI_TYPE_ARG : string }.

(** A coin as [getCoins] lists it, with the fields the file reads. *)
Record Coin : Type :=
  mkCoin {
    coinObjectId : string;
    digest : string;
    version : string
  }.

(** The options of the hooks. *)
Record GasBudgetOptions : Type :=
  mkGasBudgetOptions { maxTxGas : Z; maxTxSizeBytes : Z }.

Record GasPaymentOptions : Type :=
  mkGasPaymentOptions { maxGasObjects : Z }.

Record ValidateOptions : Type :=
  mkValidateOptions { maxPureArgumentSize : Z }.

Section BlockData.

Context {host : Host}.

(** [blockData.gasConfig]; a property that is [undefined] or [null] is
    [None]. *)
Record GasConfig : Type :=
  mkGasConfig {
    price : option JsValue;
    budget : option JsValue;
    payment : option (list ObjectRef);
    owner : option string
  }.

(** The block data, with the properties the methods below read and write. *)
Record BlockData : Type :=
  mkBlockData {
    gasConfig : GasConfig;
    sender : option string;
    inputs : list CallArg
  }.

(** [if (v)] for an optional value. *)
Definition isTruthy (v : option JsValue) : bool :=
  match v with
  | Some v => truthy v
  | None => false
  end.

Definition withPrice (blockData : BlockData) (v : JsValue) : BlockData :=
  let g := gasConfig blockData in
  mkBlockData (mkGasConfig (Some v) (budget g) (payment g) (owner g))
    (sender blockData) (inputs blockData).

Definition withBudget (blockData : BlockData) (v : JsValue) : BlockData :=
  let g := gasConfig blockData in
  mkBlockData (mkGasConfig (price g) (Some v) (payment g) (owner g))
    (sender blockData) (inputs blockData).

Definition withPayment (blockData : BlockData) (refs : list ObjectRef) : BlockData :=
  let g := gasConfig blockData in
  mkBlockData (mkGasConfig (price g) (budget g) (Some refs) (owner g))
    (sender blockData) (inputs blockData).

(** An [async] method on the block data. *)
Definition Async (A : Type) : Type := BlockData -> Try A * BlockData.

Definition resolve {A : Type} (a : A) : Async A := fun blockData => (Done a, blockData).

Definition reject {A : Type} (f : Failure) : Async A :=
  fun blockData => (Failed f, blockData).

(** [await] of a call that does not touch the block data. *)
Definition await {A : Type} (call : Try A) : Async A := fun blockData => (call, blockData).

Definition andThen {A B : Type} (m : Async A) (k : A -> Async B) : Async B :=
  fun blockData =>
    match m blockData with
    | (Done a, blockData') => k a blockData'
    | (Failed f, blockData') => (Failed f, blockData')
    end.

(** The result of [dryRunTransactionBlock], with the fields the file reads:
    [effects.status.status], [effects.status.error] and the three entries
    of [effects.gasUsed]. *)
Record DryRunResult : Type :=
  mkDryRunResult {
    status : string;
    error : option string;
    computationCost : JsValue;
    storageCost : JsValue;
    storageRebate : JsValue
  }.

(** The client, with the calls the methods below make. *)
Record SuiClient : Type :=
  mkSuiClient {
    getReferenceGasPrice : Try Z;
    getCoins : option string -> string -> Try (list Coin);
    dryRunTransactionBlock : Bytes -> Try DryRunResult
  }.

(** The overrides handed to [blockData.build]. *)
Record GasDataOverrides : Type :=
  mkGasDataOverrides {
    overrideBudget : JsValue;
    overridePayment : list ObjectRef
  }.

End BlockData.

(** [interface TransactionBlockPlugin]: every hook is optional. *)
Module TransactionBlockPlugin.
Section Hooks.
Context {host : Host}.
Record t : Type :=
  mk {
    normalizeInputs : option (unit -> Async unit);
    resolveObjectReferences : option (unit -> Async unit);
    setGasPrice : option (unit -> Async unit);
    setGasBudget : option (GasBudgetOptions -> Async unit);
    setGasPayment : option (GasPaymentOptions -> Async unit);
    validate : option (ValidateOptions -> Async unit)
  }.
End Hooks.
End TransactionBlockPlugin.

Section DefaultTransactionBlockFeatures.

Context {host : Host}.

(** The fields of the class, and [blockData.build] of the builder. *)
Variable plugins : list TransactionBlockPlugin.t.
Variable getClient : SuiClient.
Variable build : BlockData -> Z -> GasDataOverrides -> Try Bytes.

Notation "x <~ m ;; k" := (andThen m (fun x => k))
  (at level 61, m at next level, right associativity).

(** [#runHook]: the hook of each plugin that has it, in the order of the
    plugins, each awaited before the next. *)
Fixpoint runHook {Args : Type}
  (hook : TransactionBlockPlugin.t -> option (Args -> Async unit))
  (plugins : list TransactionBlockPlugin.t) (args : Args) : Async unit :=
  match plugins with
  | [] => resolve tt
  | plugin :: rest =>
      match hook plugin with
      | Some run => _ <~ run args ;; runHook hook rest args
      | None => runHook hook rest args
      end
  end.

Definition setGasPrice : Async unit :=
  _ <~ runHook TransactionBlockPlugin.setGasPrice plugins tt ;;
  fun blockData =>
    if isTruthy (price (gasConfig blockData))
    then resolve tt blockData
    else (referencePrice <~ await (getReferenceGasPrice getClient) ;;
          fun blockData => resolve tt (withPrice blockData (String_ referencePrice)))
           blockData.

(** The budget computed from a dry run that succeeded. *)
Definition budgetFromDryRun (blockData : BlockData) (dryRunResult : DryRunResult)
  : Try JsValue :=
  match (if isTruthy (price (gasConfig blockData))
         then match price (gasConfig blockData) with
              | Some v => BigInt v
              | None => Done 1%Z
              end
         else Done 1%Z) with
  | Failed f => Failed f
  | Done gasPrice =>
      let safeOverhead := (GAS_SAFE_OVERHEAD * gasPrice)%Z in
      match BigInt (computationCost dryRunResult) with
      | Failed f => Failed f
      | Done computation =>
          let baseComputationCostWithOverhead := (computation + safeOverhead)%Z in
          match BigInt (storageCost dryRunResult) with
          | Failed f => Failed f
          | Done storage =>
              match BigInt (storageRebate dryRunResult) with
              | Failed f => Failed f
              | Done rebate =>
                  let gasBudget :=
                    (baseComputationCostWithOverhead + storage - rebate)%Z in
                  Done (String_
                          (if (gasBudget >? baseComputationCostWithOverhead)%Z
                           then gasBudget
                           else baseComputationCostWithOverhead))
              end
          end
      end
  end.

Definition setGasBudget (options : GasBudgetOptions) : Async unit :=
  _ <~ runHook TransactionBlockPlugin.setGasBudget plugins options ;;
  fun blockData =>
    if negb (isTruthy (budget (gasConfig blockData)))
    then
      (transactionBlock <~ await (build blockData (maxTxSizeBytes options)
                                    (mkGasDataOverrides (String_ (maxTxGas options)) [])) ;;
       dryRunResult <~ await (dryRunTransactionBlock getClient transactionBlock) ;;
       if negb (String.eqb (status dryRunResult) "success")
       then reject (DryRunFailed (error dryRunResult))
       else
         fun blockData =>
           (newBudget <~ await (budgetFromDryRun blockData dryRunResult) ;;
            fun blockData => resolve tt (withBudget blockData newBudget)) blockData)
        blockData
    else resolve tt blockData.

(** Whether a coin is also used as an input of the block. *)
Definition matchesInput (blockData : BlockData) (coin : Coin) : bool :=
  existsb (fun input =>
             match immOrOwnedObjectId input with
             | Some objectId => String.eqb (coinObjectId coin) objectId
             | None => false
             end)
    (inputs blockData).

(** [arr.slice(0, stop)] for an integer [stop]: a negative one counts from
    the end of the array. *)
Definition sliceFromStart {T : Type} (arr : list T) (stop : Z) : list T :=
  if (stop <? 0)%Z
  then firstn (Z.to_nat (Z.max (Z.of_nat (length arr) + stop) 0)) arr
  else firstn (Z.to_nat stop) arr.

(** [xs.map(x => parse(ObjectRef, x))]: the first failure is thrown. *)
Fixpoint parseAll (coins : list Coin) : Try (list ObjectRef) :=
  match coins with
  | [] => Done []
  | coin :: rest =>
      match parseObjectRef (coinObjectId coin) (digest coin) (version coin) with
      | Failed f => Failed f
      | Done ref =>
          match parseAll rest with
          | Failed f => Failed f
          | Done refs => Done (ref :: refs)
          end
      end
  end.

(** The coins chosen to pay for gas. *)
Definition paymentCoins (blockData : BlockData) (options : GasPaymentOptions)
  (coins : list Coin) : list Coin :=
  sliceFromStart (filter (fun coin => negb (matchesInput blockData coin)) coins)
    (maxGasObjects options - 1).

(** The current default is just picking all coins we can. *)
Definition setGasPayment (options : GasPaymentOptions) : Async unit :=
  _ <~ runHook TransactionBlockPlugin.setGasPayment plugins options ;;
  fun blockData =>
    match payment (gasConfig blockData) with
    | Some refs =>
        if (Z.of_nat (length refs) >? maxGasObjects options)%Z
        then reject (PaymentObjectsExceedMaximum (maxGasObjects options)) blockData
        else resolve tt blockData
    | None =>
        let gasOwner := match owner (gasConfig blockData) with
                        | Some o => Some o
                        | None => sender blockData
                        end in
        (coins <~ await (getCoins getClient gasOwner SUI_TYPE_ARG) ;;
         fun blockData =>
           let chosen := paymentCoins blockData options coins in
           match chosen with
           | [] => reject NoValidGasCoins blockData
           | _ :: _ =>
               (refs <~ await (parseAll chosen) ;;
                fun blockData => resolve tt (withPayment blockData refs)) blockData
           end) blockData
    end.

(** The loop of [validate] over the inputs, from a given index on. *)
Fixpoint checkInputs (options : ValidateOptions) (index : nat) (inputs : list CallArg)
  : Try unit :=
  match inputs with
  | [] => Done tt
  | input :: rest =>
      match pureLength input with
      | Some len =>
          if (Z.of_nat len >? maxPureArgumentSize options)%Z
          then Failed (InputTooLarge index (maxPureArgumentSize options) len)
          else checkInputs options (S index) rest
      | None => checkInputs options (S index) rest
      end
  end.

Definition validate (options : ValidateOptions) : Async unit :=
  _ <~ runHook TransactionBlockPlugin.validate plugins options ;;
  fun blockData => await (checkInputs options 0 (inputs blockData)) blockData.

End DefaultTransactionBlockFeatures.

End TransactionBlock.

(** ** A sample host, client and block *)

(** A call argument of the sample host: pure bytes, an owned object, or
    anything else. *)
Inductive SampleArg : Type :=
| SamplePure (bytes : list nat)
| SampleOwned (objectId : string)
| SampleOther.

(** In the sample host a value is the decimal text of an integer, kept as
    that integer: such a text is never empty, so it is truthy, and [BigInt]
    reads it back. *)
Definition sampleHost : TransactionBlock.Host :=
  {| TransactionBlock.JsValue := Z;
     TransactionBlock.truthy := fun _ => true;
     TransactionBlock.BigInt := fun v => TransactionBlock.Done v;
     TransactionBlock.String_ := fun n => n;
     TransactionBlock.CallArg := SampleArg;
     TransactionBlock.pureLength :=
       fun input => match input with
                    | SamplePure bytes => Some (length bytes)
                    | _ => None
                    end;
     TransactionBlock.immOrOwnedObjectId :=
       fun input => match input with
                    | SampleOwned objectId => Some objectId
                    | _ => None
                    end;
     TransactionBlock.ObjectRef := TransactionBlock.Coin;
     TransactionBlock.parseObjectRef :=
       fun objectId digest version =>
         TransactionBlock.Done (TransactionBlock.mkCoin objectId digest version);
     TransactionBlock.Bytes := unit;
     TransactionBlock.SUI_TYPE_ARG := "0x2::sui::SUI" |}.

Definition sampleCoin (id : string) : TransactionBlock.Coin :=
  TransactionBlock.mkCoin id "digest" "1".

(** A client with three coins, a reference price of 750 and a dry run that
    used 1000 units of computation, 300 of storage, and gives 200 back. *)
Definition sampleClient : @TransactionBlock.SuiClient sampleHost :=
  @TransactionBlock.mkSuiClient sampleHost
    (TransactionBlock.Done 750%Z)
    (fun _ _ => TransactionBlock.Done [sampleCoin "0xa"; sampleCoin "0xb"; sampleCoin "0xc"])
    (fun _ => TransactionBlock.Done
                (@TransactionBlock.mkDryRunResult sampleHost "success" None
                   1000%Z 300%Z 200%Z)).

Definition sampleBuild : @TransactionBlock.BlockData sampleHost -> Z
    -> @TransactionBlock.GasDataOverrides sampleHost -> TransactionBlock.Try unit :=
  fun _ _ _ => TransactionBlock.Done tt.

(** A block that uses the coin [0xb] as an input and carries two pure
    inputs, of three and of five bytes. *)
Definition sampleBlock : @TransactionBlock.BlockData sampleHost :=
  @TransactionBlock.mkBlockData sampleHost
    (@TransactionBlock.mkGasConfig sampleHost None None None None)
    (Some "0xsender")
    [SampleOwned "0xb"; SamplePure [1; 2; 3]; SamplePure [1; 2; 3; 4; 5]].

(** A plugin whose only hook sets the price to 5. *)
Definition samplePricePlugin : @TransactionBlock.TransactionBlockPlugin.t sampleHost :=
  @TransactionBlock.TransactionBlockPlugin.mk sampleHost None None
    (Some (fun _ blockData =>
             (TransactionBlock.Done tt,
              @TransactionBlock.withPrice sampleHost blockData 5%Z)))
    None None None.

(** A plugin whose only hook doubles the price it finds. *)
Definition sampleDoublingPlugin : @TransactionBlock.TransactionBlockPlugin.t sampleHost :=
  @TransactionBlock.TransactionBlockPlugin.mk sampleHost None None
    (Some (fun _ blockData =>
             match @TransactionBlock.price sampleHost
                     (@TransactionBlock.gasConfig sampleHost blockData) with
             | Some v =>
                 (TransactionBlock.Done tt,
                  @TransactionBlock.withPrice sampleHost blockData (2 * v)%Z)
             | None => (TransactionBlock.Done tt, blockData)
             end))
    None None None.

(** * Properties *)

(** ** Basic facts about outcomes and paths *)

Lemma path_node_some (path : AstPath) (n : Node) :
  node path = Some n -> path_node path = Ok n.
Proof.
  unfold path_node. intros ->. reflexivity.
Qed.

Lemma bind_ok_inv {A B : Type} (c : Result A) (k : A -> Result B) (b : B) :
  bind c k = Ok b -> exists a, c = Ok a /\ k a = Ok b.
Proof.
  destruct c as [a | e]; simpl; intros H.
  - exists a. split; [reflexivity | exact H].
  - discriminate.
Qed.

Lemma mapM_length {A B : Type} (f : A -> Result B) (xs : list A) (ys : list B) :
  mapM f xs = Ok ys -> length ys = length xs.
Proof.
  revert ys. induction xs as [| x rest IH]; simpl; intros ys H.
  - inversion H. reflexivity.
  - destruct (f x) as [y | e]; simpl in H; [| discriminate].
    destruct (mapM f rest) as [ys' | e]; simpl in H; [| discriminate].
    inversion H. simpl. f_equal. apply IH. reflexivity.
Qed.

Lemma mapM_ext_in {A B : Type} (f g : A -> Result B) (xs : list A) :
  (forall x, In x xs -> f x = g x) -> mapM f xs = mapM g xs.
Proof.
  induction xs as [| x rest IH]; simpl; intros H.
  - reflexivity.
  - rewrite (H x (or_introl eq_refl)).
    rewrite IH; [reflexivity |].
    intros y Hy. apply H. right. exact Hy.
Qed.

(** Every path of a child array stands on a node. *)
Lemma zipPaths_node (anc before after : list Node) :
  map node (zipPaths anc before after) = map Some after.
Proof.
  revert before. induction after as [| c rest IH]; simpl; intros before.
  - reflexivity.
  - f_equal. apply IH.
Qed.

Lemma filter_significant_map (ps : list AstPath) (ns : list Node) :
  map node ps = map Some ns ->
  map node (filter significantPath ps) = map Some (filter significant ns).
Proof.
  revert ns. induction ps as [| p ps IH]; intros [| m ns] H; simpl in *;
    try discriminate; try reflexivity.
  inversion H as [[Hp Hrest]].
  unfold significantPath at 1. rewrite Hp.
  destruct (significant m); simpl; rewrite ?Hp; f_equal; auto.
Qed.

(** The paths [path.map] visits stand, in order, on the nodes of
    [node.nonFormattingChildren]. *)
Lemma significantChildren_nodes (path : AstPath) (n : Node) :
  map node (significantChildren path n) = map Some (nonFormattingChildren n).
Proof.
  unfold significantChildren, nonFormattingChildren, select, childPaths.
  apply filter_significant_map, zipPaths_node.
Qed.

Lemma significantChildren_length (path : AstPath) (n : Node) :
  length (significantChildren path n) = length (nonFormattingChildren n).
Proof.
  rewrite <- (length_map node), significantChildren_nodes, length_map.
  reflexivity.
Qed.

Lemma significantChildren_in_childPaths (path : AstPath) (n : Node) (c : AstPath) :
  In c (significantChildren path n) -> In c (childPaths path n).
Proof.
  unfold significantChildren, select. intros H.
  apply filter_In in H. tauto.
Qed.

(** Unfolds a procedure at a path that stands on a node. *)
Ltac on_node H :=
  unfold path_map, path_call, firstSignificantChild, significantChildren in *;
  rewrite ?(path_node_some _ H); cbn [bind].

(** ** Function types *)

(** C1.  A [function_type] node without formatting-significant children
    prints as the literal ["||"]; with exactly one, the procedure returns
    what the callback returns for that child, with no arrow; with exactly
    two, it returns the two documents joined by [" -> "]. *)
Theorem printFunctionType_cases (path : AstPath) (n : Node)
  (options : ParserOptions) (print : printFn) :
  node path = Some n ->
  (significantChildren path n = [] ->
   printFunctionType path options print = Ok (Text "||"))
  /\ (forall c, significantChildren path n = [c] ->
      printFunctionType path options print = print c)
  /\ (forall c1 c2 d1 d2,
      significantChildren path n = [c1; c2] ->
      print c1 = Ok d1 -> print c2 = Ok d2 ->
      printFunctionType path options print = Ok (Join (Text " -> ") [d1; d2])).
Proof.
  intros Hn. unfold printFunctionType. on_node Hn.
  repeat split.
  - intros ->. reflexivity.
  - intros c ->. simpl. destruct (print c); reflexivity.
  - intros c1 c2 d1 d2 -> H1 H2. simpl. rewrite H1, H2. reflexivity.
Qed.

Lemma printFunctionType_cases_witness :
  printFunctionType (rootPath sampleFunEmpty) defaultOptions walk = Ok (Text "||")
  /\ flatTextOf (printFunctionType (rootPath sampleFunOne) defaultOptions walk) = Some "x"
  /\ printFunctionType (rootPath sampleFunTwo) defaultOptions walk
     = Ok (Join (Text " -> ") [Text "x"; Text "u8"]).
Proof.
  split; [| split].
  - apply (printFunctionType_cases (rootPath sampleFunEmpty) defaultOptions walk
             (n := sampleFunEmpty) eq_refl).
    reflexivity.
  - rewrite (proj1 (proj2 (printFunctionType_cases (rootPath sampleFunOne)
                             defaultOptions walk (n := sampleFunOne) eq_refl))
               (mkPath (Some (leaf "identifier" "x")) [] [] [sampleFunOne]) eq_refl).
    reflexivity.
  - apply (proj2 (proj2 (printFunctionType_cases (rootPath sampleFunTwo)
                             defaultOptions walk (n := sampleFunTwo) eq_refl))
             (mkPath (Some (leaf "identifier" "x")) []
                [token "->"; leaf "primitive_type" "u8"] [sampleFunTwo])
             (mkPath (Some (leaf "primitive_type" "u8"))
                [token "->"; leaf "identifier" "x"] [] [sampleFunTwo]));
      reflexivity.
Defined.

(** ** Tuple types *)

Lemma append_empty_r (s : string) : (s ++ "")%string = s.
Proof.
  induction s as [| a s IH]; simpl; [reflexivity | now rewrite IH].
Qed.

(** C2.  A [tuple_type] node prints as a group that does not force a break
    and holds, in order: the opening parenthesis, an indented soft line, the
    indented join of the children's documents by a comma and a line, a comma
    shown only when the group is broken, a soft line, and the closing
    parenthesis.  Laid out flat, the text is the joined items between the
    parentheses, with no trailing comma. *)
Theorem printTupleType_shape (path : AstPath) (n : Node)
  (options : ParserOptions) (print : printFn) (docs : list Doc) :
  node path = Some n ->
  mapM print (significantChildren path n) = Ok docs ->
  printTupleType path options print
  = Ok (Group
          (Concat
             [ Text "(";
               Indent SoftLine;
               Indent (Join (Concat [Text ","; Line]) docs);
               IfBreak (Text ",") (Text "");
               SoftLine;
               Text ")" ])
          false)
  /\ flatTextOf (printTupleType path options print)
     = option_map (fun items => "(" ++ items ++ ")")
         (flatText (Join (Concat [Text ","; Line]) docs)).
Proof.
  intros Hn Hdocs. unfold printTupleType. on_node Hn.
  rewrite Hdocs. cbn [bind]. split; [reflexivity |].
  unfold groupWith, indent, softline, line, ifBreak, join.
  remember (Join (Concat [Text ","; Line]) docs) as items eqn:Hitems.
  clear Hitems. simpl.
  destruct (flatText items) as [t |]; reflexivity.
Qed.

Lemma printTupleType_shape_witness :
  printTupleType (rootPath sampleTuple) defaultOptions walk
  = Ok (Group
          (Concat
             [ Text "(";
               Indent SoftLine;
               Indent (Join (Concat [Text ","; Line]) [Text "u8"; Text "bool"]);
               IfBreak (Text ",") (Text "");
               SoftLine;
               Text ")" ])
          false)
  /\ flatTextOf (printTupleType (rootPath sampleTuple) defaultOptions walk)
     = Some "(u8, bool)".
Proof.
  exact (printTupleType_shape (rootPath sampleTuple) defaultOptions walk
           (n := sampleTuple) (docs := [Text "u8"; Text "bool"]) eq_refl eq_refl).
Defined.

(** ** Reference types *)

(** C3.  A [ref_type] node prints as a group of a marker followed by what
    the callback returns for the first formatting-significant child.  The
    marker is ["&"] when the text of the first raw child is ["&"], and
    ["&mut "] for any other text, whatever the kind of that child; so a
    mutable marker before a type whose document reads [T] reads ["&mut T"]. *)
Theorem printRefType_marker (path : AstPath) (n marker : Node)
  (options : ParserOptions) (print : printFn) (ty : Doc) :
  node path = Some n ->
  child n 0 = Some marker ->
  print (firstSignificantChild path n) = Ok ty ->
  (text marker = "&" ->
   printRefType path options print = Ok (Group (Concat [Text "&"; ty]) false))
  /\ (text marker <> "&" ->
      printRefType path options print = Ok (Group (Concat [Text "&mut "; ty]) false)
      /\ forall t, flatText ty = Some t ->
           flatTextOf (printRefType path options print) = Some ("&mut " ++ t)).
Proof.
  intros Hn Hmarker Hty. unfold printRefType. on_node Hn.
  rewrite Hmarker. cbn [bind]. rewrite Hty. cbn [bind].
  split.
  - intros ->. reflexivity.
  - intros Hneq. apply String.eqb_neq in Hneq. rewrite Hneq. simpl.
    split; [reflexivity |].
    intros t ->. now rewrite append_empty_r.
Qed.

Lemma printRefType_marker_witness :
  printRefType (rootPath sampleRef) defaultOptions walk
  = Ok (Group (Concat [Text "&"; Text "T"]) false)
  /\ printRefType (rootPath sampleRefMut) defaultOptions walk
     = Ok (Group (Concat [Text "&mut "; Text "T"]) false)
  /\ flatTextOf (printRefType (rootPath sampleRefMut) defaultOptions walk)
     = Some "&mut T".
Proof.
  split; [| split].
  - apply (printRefType_marker (rootPath sampleRef) defaultOptions walk
             (n := sampleRef) (marker := token "&") (ty := Text "T")
             eq_refl eq_refl eq_refl).
    reflexivity.
  - apply (printRefType_marker (rootPath sampleRefMut) defaultOptions walk
             (n := sampleRefMut) (marker := token "&mut") (ty := Text "T")
             eq_refl eq_refl eq_refl).
    discriminate.
  - apply (proj2 (printRefType_marker (rootPath sampleRefMut) defaultOptions walk
             (n := sampleRefMut) (marker := token "&mut") (ty := Text "T")
             eq_refl eq_refl eq_refl)).
    + discriminate.
    + reflexivity.
Defined.

(** ** Mutability markers and bind fields *)

Lemma zipPaths_on_node (anc before after : list Node) (c : AstPath) :
  In c (zipPaths anc before after) -> exists m, node c = Some m.
Proof.
  revert before. induction after as [| a rest IH]; simpl; intros before H.
  - contradiction.
  - destruct H as [<- | H]; [exists a; reflexivity | eauto].
Qed.

Lemma significantChildren_on_node (path : AstPath) (n : Node) (c : AstPath) :
  In c (significantChildren path n) -> exists m, node c = Some m.
Proof.
  intros H. apply significantChildren_in_childPaths in H.
  unfold childPaths in H. eapply zipPaths_on_node, H.
Qed.

(** The callback [bind_field] maps over its elements. *)
Lemma mapM_bind_field_callback (print : printFn) (cs : list AstPath) (docs : list Doc) :
  (forall c, In c cs -> exists m, node c = Some m) ->
  mapM print cs = Ok docs ->
  mapM (fun path : AstPath =>
          _ <- path_node path ;;
          if typeIs (previousSibling path) "mut"
          then (d <- print path ;; Ok (Concat [Text "mut "; d]))
          else print path) cs
  = Ok (map (fun cd => boundValueDoc (fst cd) (snd cd)) (combine cs docs)).
Proof.
  revert docs. induction cs as [| c rest IH]; intros docs Hnodes Hdocs.
  - reflexivity.
  - cbn [mapM] in *.
    destruct (Hnodes c (or_introl eq_refl)) as [m Hm].
    rewrite (path_node_some _ Hm). cbn [bind].
    destruct (print c) as [d | e]; cbn [bind] in Hdocs; [| discriminate].
    destruct (mapM print rest) as [ds | e] eqn:Hrest; cbn [bind] in Hdocs;
      [| discriminate].
    inversion Hdocs; subst docs. clear Hdocs.
    rewrite (IH ds); [| intros c' Hc'; apply Hnodes; right; exact Hc' | reflexivity].
    unfold boundValueDoc. cbn [combine map fst snd bind].
    destruct (typeIs (previousSibling c) "mut"); reflexivity.
Qed.

Lemma map_boundValueDoc_plain (cs : list AstPath) (docs : list Doc) :
  length docs = length cs ->
  (forall c, In c cs -> typeIs (previousSibling c) "mut" = false) ->
  map (fun cd => boundValueDoc (fst cd) (snd cd)) (combine cs docs) = docs.
Proof.
  revert docs. induction cs as [| c rest IH]; intros [| d ds] Hlen Hplain;
    simpl in *; try discriminate; try reflexivity.
  unfold boundValueDoc at 1. rewrite (Hplain c (or_introl eq_refl)).
  f_equal. apply IH; [lia | auto].
Qed.

(** What [bind_field] returns when it does not start with the rest token. *)
Lemma printBindField_join (path : AstPath) (n : Node) (options : ParserOptions)
  (print : printFn) (docs : list Doc) :
  node path = Some n ->
  typeIs (child n 0) ".." = false ->
  mapM print (significantChildren path n) = Ok docs ->
  printBindField path options print
  = Ok (Join (Text ": ")
          (map (fun cd => boundValueDoc (fst cd) (snd cd))
             (combine (significantChildren path n) docs))).
Proof.
  intros Hn Hrest Hdocs. unfold printBindField.
  rewrite (path_node_some _ Hn). cbn [bind]. rewrite Hrest.
  unfold path_map. rewrite (path_node_some _ Hn). cbn [bind].
  fold (significantChildren path n).
  rewrite (@mapM_bind_field_callback print (significantChildren path n) docs).
  - reflexivity.
  - intros c Hc. eapply significantChildren_on_node, Hc.
  - exact Hdocs.
Qed.



(** C5, the claim as written fails: a [bind_field] node that starts with the
    rest token and goes on prints as [".."] although the token is not its
    sole child. *)
Lemma printBindField_rest_not_sole :
  ~ (forall (path : AstPath) (n : Node) (options : ParserOptions) (print : printFn),
        node path = Some n ->
        (printBindField path options print = Ok (Text "..")
         <-> exists c, children n = [c] /\ type c = "..")).
Proof.
  intros claim.
  destruct (claim (rootPath sampleRestThenMore) sampleRestThenMore
              defaultOptions walk eq_refl) as [Hsole _].
  destruct (Hsole eq_refl) as [c [Hchildren _]].
  discriminate Hchildren.
Qed.

(** C5, amended.  A [bind_field] node prints as the literal [".."] exactly
    when its first raw child is the rest token, whether or not other children
    follow.  Otherwise it prints the join by [": "] of the documents of its
    formatting-significant children, the document of a child that follows
    the keyword [mut] having ["mut "] before it; where no child follows that
    keyword these are the children's documents unchanged, and a single one
    reads alone. *)
Theorem printBindField_rest_first (path : AstPath) (n : Node)
  (options : ParserOptions) (print : printFn) :
  node path = Some n ->
  (printBindField path options print = Ok (Text "..")
   <-> typeIs (child n 0) ".." = true)
  /\ (forall docs,
      typeIs (child n 0) ".." = false ->
      mapM print (significantChildren path n) = Ok docs ->
      printBindField path options print
      = Ok (Join (Text ": ")
              (map (fun cd => boundValueDoc (fst cd) (snd cd))
                 (combine (significantChildren path n) docs)))
      /\ (forall c d,
          significantChildren path n = [c] -> docs = [d] ->
          flatTextOf (printBindField path options print)
          = flatText (boundValueDoc c d))
      /\ ((forall c, In c (significantChildren path n) ->
                     typeIs (previousSibling c) "mut" = false) ->
          printBindField path options print = Ok (Join (Text ": ") docs)
          /\ (forall d, docs = [d] ->
                flatTextOf (printBindField path options print) = flatText d))).
Proof.
  intros Hn. split.
  - unfold printBindField. rewrite (path_node_some _ Hn). cbn [bind].
    destruct (typeIs (child n 0) "..").
    + split; reflexivity.
    + split; [| discriminate].
      intros H. apply bind_ok_inv in H. destruct H as [docs [_ H]].
      discriminate H.
  - intros docs Hrest Hdocs.
    rewrite (printBindField_join path options print Hn Hrest Hdocs).
    split; [reflexivity | split].
    + intros c d -> ->. reflexivity.
    + intros Hplain.
      rewrite map_boundValueDoc_plain;
        [| now apply mapM_length in Hdocs | exact Hplain].
      split; [reflexivity |].
      intros d ->. reflexivity.
Qed.

Lemma printBindField_rest_first_witness :
  printBindField (rootPath sampleRest) defaultOptions walk = Ok (Text "..")
  /\ printBindField (rootPath sampleRestThenMore) defaultOptions walk = Ok (Text "..")
  /\ printBindField (rootPath sampleBindFieldPlain) defaultOptions walk
     = Ok (Join (Text ": ") [Text "f"; Text "x"])
  /\ printBindField (rootPath sampleBindField) defaultOptions walk
     = Ok (Join (Text ": ") [Text "f"; Concat [Text "mut "; Text "x"]]).
Proof.
  refine (conj _ (conj _ (conj _ _))).
  - apply (printBindField_rest_first (rootPath sampleRest) defaultOptions walk
             (n := sampleRest) eq_refl).
    reflexivity.
  - apply (printBindField_rest_first (rootPath sampleRestThenMore) defaultOptions walk
             (n := sampleRestThenMore) eq_refl).
    reflexivity.
  - apply (proj2 (proj2 (proj2 (printBindField_rest_first (rootPath sampleBindFieldPlain)
                                  defaultOptions walk (n := sampleBindFieldPlain) eq_refl)
                           [Text "f"; Text "x"] eq_refl eq_refl))).
    intros c [<- | [<- | []]]; reflexivity.
  - apply (proj1 (proj2 (printBindField_rest_first (rootPath sampleBindField)
                           defaultOptions walk (n := sampleBindField) eq_refl)
                    [Text "f"; Text "x"] eq_refl eq_refl)).
Defined.

(** ** Leaves *)

(** Evaluates the dispatch at a node whose kind is known. *)
Ltac dispatch Hn Hty :=
  unfold default; rewrite (path_node_some _ Hn); cbn [bind];
  rewrite Hty; cbv [isCase Common_value]; simpl.

(** C6.  On a node of a leaf kind the registry answers with a procedure that
    returns exactly the text of the node, whatever the options and the
    callback: the seven procedures never fail on a node. *)
Theorem leaf_printers_total (helpers : utilities.Helpers) (path : AstPath)
  (n : Node) (kind : Common) (options : ParserOptions) (print : printFn) :
  node path = Some n ->
  In kind leafKinds ->
  type n = Common_value kind ->
  (exists procedure,
      default path = Ok (Some procedure)
      /\ procedure path options print = Ok (Text (text n)))
  /\ printPrimitiveType path options print = Ok (Text (text n))
  /\ printVariableIdentifier path options print = Ok (Text (text n))
  /\ printIdentifier path options print = Ok (Text (text n))
  /\ printBinaryOperator path options print = Ok (Text (text n))
  /\ printFieldIdentifier path options print = Ok (Text (text n))
  /\ printAbility path options print = Ok (Text (text n))
  /\ printUnaryOperator path options print = Ok (Text (text n)).
Proof.
  intros Hn Hkind Hty.
  assert (Hleaf : forall procedure : treeFn,
             procedure = (fun path options print => n <- path_node path ;; Ok (Text (text n))) ->
             procedure path options print = Ok (Text (text n))).
  { intros procedure ->. now rewrite (path_node_some _ Hn). }
  split.
  - unfold leafKinds in Hkind. simpl in Hkind.
    destruct Hkind as [<- | [<- | [<- | [<- | [<- | [<- | [<- | []]]]]]]];
      dispatch Hn Hty; eexists; (split; [reflexivity | now apply Hleaf]).
  - repeat split; now apply Hleaf.
Qed.

Lemma leaf_printers_total_witness :
  exists procedure,
    @default specHelpers (rootPath (leaf "primitive_type" "u64")) = Ok (Some procedure)
    /\ procedure (rootPath (leaf "primitive_type" "u64")) defaultOptions walk
       = Ok (Text "u64").
Proof.
  exact (proj1 (@leaf_printers_total specHelpers (rootPath (leaf "primitive_type" "u64"))
                  (leaf "primitive_type" "u64") PrimitiveType defaultOptions walk
                  eq_refl (or_introl eq_refl) eq_refl)).
Defined.

(** ** The registry *)

(** What the dispatch answers on a node, read off the chain of cases. *)
Lemma default_on_node (helpers : utilities.Helpers) (path : AstPath) (n : Node) :
  node path = Some n ->
  match default path with
  | Ok (Some _) => exists kind, type n = Common_value kind
  | Ok None => forall kind, type n <> Common_value kind
  | Throw _ => False
  end.
Proof.
  intros Hn. unfold default. rewrite (path_node_some _ Hn). cbn [bind].
  unfold isCase.
  repeat match goal with
         | |- context [String.eqb (type n) (Common_value ?kind)] =>
             destruct (String.eqb_spec (type n) (Common_value kind));
             [exists kind; assumption |]
         end.
  intros kind. destruct kind; assumption.
Qed.

(** C8.  On a node, the registry answers with a procedure exactly when the
    kind of the node is the value of a member of [Common], and with nothing
    exactly when it is the value of none.  The lookup is a function of the
    path: it has one answer and changes nothing. *)
Theorem default_exactly_Common (helpers : utilities.Helpers) (path : AstPath)
  (n : Node) :
  node path = Some n ->
  ((exists procedure, default path = Ok (Some procedure))
   <-> (exists kind, type n = Common_value kind))
  /\ (default path = Ok None
      <-> (forall kind, type n <> Common_value kind)).
Proof.
  intros Hn. pose proof (default_on_node helpers path Hn) as H.
  destruct (default path) as [[procedure |] | e]; [| | contradiction].
  - split; split.
    + intros _. exact H.
    + intros _. exists procedure. reflexivity.
    + discriminate.
    + intros Hnone. destruct H as [kind Hkind]. now destruct (Hnone kind).
  - split; split.
    + intros [procedure Hp]. discriminate.
    + intros [kind Hkind]. now destruct (H kind).
    + intros _. exact H.
    + reflexivity.
Qed.

Lemma default_exactly_Common_witness :
  (exists procedure,
      @default specHelpers (rootPath sampleTuple) = Ok (Some procedure))
  /\ @default specHelpers (rootPath (token "->")) = Ok None.
Proof.
  split.
  - apply (@default_exactly_Common specHelpers (rootPath sampleTuple) sampleTuple
             eq_refl).
    exists TupleType. reflexivity.
  - apply (@default_exactly_Common specHelpers (rootPath (token "->")) (token "->")
             eq_refl).
    intros kind. destruct kind; discriminate.
Defined.

(** ** Lists that keep the author's line breaks *)




(** ** Expression fields *)

(** C10.  An [exp_field] node with three or more formatting-significant
    children, all of which print, yields the group of the first document,
    [": "] and the second document; the documents after the second are left
    out, and the procedure does not fail. *)
Theorem printExpressionField_drops_extra (path : AstPath) (n : Node)
  (options : ParserOptions) (print : printFn) (docs : list Doc) :
  node path = Some n ->
  3 <= length (nonFormattingChildren n) ->
  mapM print (significantChildren path n) = Ok docs ->
  exists d1 d2 d3 rest,
    docs = d1 :: d2 :: d3 :: rest
    /\ printExpressionField path options print
       = Ok (Group (Concat [d1; Text ": "; d2]) false).
Proof.
  intros Hn Hlen Hdocs.
  pose proof (mapM_length _ _ Hdocs) as Hsame.
  rewrite significantChildren_length in Hsame.
  destruct docs as [| d1 [| d2 [| d3 rest]]]; simpl in Hsame; try lia.
  exists d1, d2, d3, rest. split; [reflexivity |].
  unfold printExpressionField. on_node Hn. rewrite Hdocs. reflexivity.
Qed.

Lemma printExpressionField_drops_extra_witness :
  exists d1 d2 d3 rest,
    [Text "a"; Text "b"; Text "c"] = d1 :: d2 :: d3 :: rest
    /\ printExpressionField (rootPath sampleExpFieldThree) defaultOptions walk
       = Ok (Group (Concat [d1; Text ": "; d2]) false).
Proof.
  apply (printExpressionField_drops_extra (rootPath sampleExpFieldThree)
           defaultOptions walk (n := sampleExpFieldThree)
           (docs := [Text "a"; Text "b"; Text "c"]) eq_refl).
  - simpl. lia.
  - reflexivity.
Defined.

(** ** Where the callback is read *)

Lemma select_in_childPaths (prop : ChildrenProperty) (path : AstPath) (n : Node)
  (c : AstPath) :
  In c (select prop path n) -> In c (childPaths path n).
Proof.
  destruct prop; simpl; intros H; [exact H |].
  apply filter_In in H. tauto.
Qed.

Lemma path_map_agree {A : Type} (f g : AstPath -> Result A) (path : AstPath)
  (n : Node) (prop : ChildrenProperty) :
  node path = Some n ->
  (forall c, In c (childPaths path n) -> f c = g c) ->
  path_map f path prop = path_map g path prop.
Proof.
  intros Hn Hagree. unfold path_map. rewrite (path_node_some _ Hn). cbn [bind].
  apply mapM_ext_in. intros c Hc. eapply Hagree, select_in_childPaths, Hc.
Qed.

Lemma path_call_agree {A : Type} (f g : AstPath -> Result A) (path : AstPath)
  (n : Node) (prop : ChildrenProperty) (i : nat) :
  node path = Some n ->
  (forall c, In c (childPaths path n) -> f c = g c) ->
  f (undefinedPath path n) = g (undefinedPath path n) ->
  path_call f path prop i = path_call g path prop i.
Proof.
  intros Hn Hagree Hundef. unfold path_call.
  rewrite (path_node_some _ Hn). cbn [bind].
  destruct (nth_in_or_default i (select prop path n) (undefinedPath path n))
    as [Hin | ->].
  - eapply Hagree, select_in_childPaths, Hin.
  - exact Hundef.
Qed.

(** X22.  The procedures that do not go through the list helper read the
    callback at the children of the node only, and the options not at all:
    run on the same path with other options and with another callback that
    answers alike on the children of the node and on the undefined node, each
    returns the same outcome.  None of them prints a sibling or an ancestor
    of its node, and none depends on the width. *)
Theorem callback_read_at_children_only (path : AstPath) (n : Node)
  (options1 options2 : ParserOptions) (print1 print2 : printFn) :
  node path = Some n ->
  (forall c, In c (childPaths path n) -> print1 c = print2 c) ->
  print1 (undefinedPath path n) = print2 (undefinedPath path n) ->
  Forall (fun procedure : treeFn =>
            procedure path options1 print1 = procedure path options2 print2)
    [ printPrimitiveType; printVariableIdentifier; printModuleAccess; printIdentifier;
      printRefType; printFunctionType; printBinaryOperator; printFieldIdentifier;
      printAbility; printTupleType; printAnnotationItem; printAnnotationExpression;
      printBindUnpack; printBindFields; printBindField; printBindVar; printLabel;
      printAlias; printBlockIdentifier; printUnaryOperator; printExpressionField ].
Proof.
  intros Hn Hagree Hundef.
  assert (Hmap : forall prop,
             path_map print1 path prop = path_map print2 path prop)
    by (intros prop; now apply path_map_agree with (n := n)).
  assert (Hcall : forall prop i,
             path_call print1 path prop i = path_call print2 path prop i)
    by (intros prop i; now apply path_call_agree with (n := n)).
  repeat constructor.
  all: try reflexivity.
  all: try (unfold printModuleAccess, printAnnotationItem, printTupleType,
              printBindUnpack, printExpressionField, printFunctionType;
            now rewrite Hmap).
  all: try (unfold printRefType, printBindFields, printBindVar, printAlias,
              printBlockIdentifier;
            now rewrite Hcall).
  - unfold printAnnotationExpression. f_equal.
    apply path_map_agree with (n := n); [exact Hn |].
    intros c Hc. cbv beta. now rewrite (Hagree c Hc).
  - unfold printBindField. rewrite (path_node_some _ Hn). cbn [bind].
    destruct (typeIs (child n 0) ".."); [reflexivity |]. f_equal.
    apply path_map_agree with (n := n); [exact Hn |].
    intros c Hc. cbv beta. now rewrite (Hagree c Hc).
Qed.

Lemma callback_read_at_children_only_witness :
  printTupleType (rootPath sampleTuple) defaultOptions walk
  = printTupleType (rootPath sampleTuple) (mkOptions 20 2 false)
      (treeWalk specHelpers printText (mkOptions 20 2 false) 17).
Proof.
  pose proof (@callback_read_at_children_only (rootPath sampleTuple) sampleTuple
                defaultOptions (mkOptions 20 2 false) walk
                (treeWalk specHelpers printText (mkOptions 20 2 false) 17) eq_refl)
    as Hall.
  assert (Hagree : forall c, In c (childPaths (rootPath sampleTuple) sampleTuple) ->
                             walk c = treeWalk specHelpers printText (mkOptions 20 2 false) 17 c).
  { intros c [<- | [<- | [<- | [<- | [<- | []]]]]]; reflexivity. }
  specialize (Hall Hagree eq_refl).
  rewrite Forall_forall in Hall.
  apply (Hall printTupleType).
  simpl. tauto.
Defined.

(** ** The walk on a nested pattern *)

(** [S { f: mut x }]: the marker two levels below the root is kept. *)
Example walk_nested_unpack :
  flatTextOf (walk (rootPath sampleUnpack)) = Some "S { f: mut x }".
Proof.
  reflexivity.
Qed.

(** * Further properties of the print procedures *)

(** ** Success and failure of the procedures that map over the children *)

Lemma mapM_ok_iff {A B : Type} (f : A -> Result B) (xs : list A) :
  (exists ys, mapM f xs = Ok ys) <-> (forall x, In x xs -> exists y, f x = Ok y).
Proof.
  induction xs as [| x rest IH]; simpl.
  - split; [intros _ x [] | intros _; eexists; reflexivity].
  - split.
    + intros [ys H]. apply bind_ok_inv in H. destruct H as [y [Hy H]].
      apply bind_ok_inv in H. destruct H as [ys' [Hys' _]].
      intros x' [<- | Hin]; [eauto |].
      apply IH; eauto.
    + intros H. destruct (H x (or_introl eq_refl)) as [y Hy].
      destruct (proj2 IH (fun x' Hin => H x' (or_intror Hin))) as [ys Hys].
      exists (y :: ys). rewrite Hy, Hys. reflexivity.
Qed.

Lemma bind_ok_total {A B : Type} (c : Result A) (k : A -> B) :
  (exists b, bind c (fun a => Ok (k a)) = Ok b) <-> (exists a, c = Ok a).
Proof.
  destruct c as [a | e]; simpl; split; intros [x H]; try discriminate; eauto.
Qed.

(** The callback wrapped the way [bind_field] and [annotation_expr] wrap it
    succeeds on an element exactly when the callback does. *)
Lemma wrapped_callback_ok (print : printFn) (test : Node -> AstPath -> bool)
  (wrap : Doc -> Doc) (c : AstPath) (m : Node) :
  node c = Some m ->
  (exists y, (n <- path_node c ;;
              if test n c then (d <- print c ;; Ok (wrap d)) else print c) = Ok y)
  <-> (exists d, print c = Ok d).
Proof.
  intros Hm. rewrite (path_node_some _ Hm). cbn [bind].
  destruct (test m c); [apply bind_ok_total | reflexivity].
Qed.

(** X1.  The procedures that map the callback over the children of the node
    build their document from all of them or not at all: each succeeds
    exactly when the callback succeeds on every formatting-significant child
    ([module_access]: on every raw child), and has no failure of its own.
    [bind_field] is the exception only where it starts with the rest token. *)
Theorem children_decide_success (path : AstPath) (n : Node)
  (options : ParserOptions) (print : printFn) :
  node path = Some n ->
  let allPrint := forall c, In c (significantChildren path n) -> exists d, print c = Ok d in
  ((exists d, printAnnotationItem path options print = Ok d) <-> allPrint)
  /\ ((exists d, printTupleType path options print = Ok d) <-> allPrint)
  /\ ((exists d, printBindUnpack path options print = Ok d) <-> allPrint)
  /\ ((exists d, printExpressionField path options print = Ok d) <-> allPrint)
  /\ ((exists d, printFunctionType path options print = Ok d) <-> allPrint)
  /\ ((exists d, printAnnotationExpression path options print = Ok d) <-> allPrint)
  /\ (typeIs (child n 0) ".." = false ->
      ((exists d, printBindField path options print = Ok d) <-> allPrint))
  /\ ((exists d, printModuleAccess path options print = Ok d)
      <-> (forall c, In c (childPaths path n) -> exists d, print c = Ok d)).
Proof.
  intros Hn allPrint.
  assert (Hmap : (exists docs, path_map print path prop_nonFormattingChildren = Ok docs)
                 <-> allPrint).
  { unfold path_map. rewrite (path_node_some _ Hn). cbn [bind]. apply mapM_ok_iff. }
  assert (Hwrapped : forall (test : Node -> AstPath -> bool) (wrap : Doc -> Doc),
             (exists docs,
                 path_map (fun c => n <- path_node c ;;
                                    if test n c then (d <- print c ;; Ok (wrap d))
                                    else print c)
                   path prop_nonFormattingChildren = Ok docs)
             <-> allPrint).
  { intros test wrap. unfold path_map. rewrite (path_node_some _ Hn). cbn [bind].
    rewrite mapM_ok_iff. unfold allPrint.
    split; intros H c Hc; destruct (significantChildren_on_node _ _ _ Hc) as [m Hm];
      apply (@wrapped_callback_ok print test wrap c m Hm); apply H; exact Hc. }
  assert (Hsized : forall (k : list Doc -> Result Doc),
             (forall docs, exists d, k docs = Ok d) ->
             (exists d, bind (path_map print path prop_nonFormattingChildren) k = Ok d)
             <-> allPrint).
  { intros k Hk. rewrite <- Hmap. split.
    - intros [d H]. apply bind_ok_inv in H. destruct H as [docs [H _]]. eauto.
    - intros [docs H]. rewrite H. cbn [bind]. apply Hk. }
  refine (conj _ (conj _ (conj _ (conj _ (conj _ (conj _ (conj _ _))))))).
  - unfold printAnnotationItem. rewrite bind_ok_total. exact Hmap.
  - unfold printTupleType. rewrite bind_ok_total. exact Hmap.
  - unfold printBindUnpack. rewrite bind_ok_total. exact Hmap.
  - unfold printExpressionField. apply Hsized. intros docs.
    destruct (Nat.eqb (length docs) 1); eauto.
  - unfold printFunctionType. apply Hsized. intros docs.
    destruct (Nat.eqb (length docs) 0); [eauto |].
    destruct (Nat.eqb (length docs) 1); eauto.
  - unfold printAnnotationExpression. rewrite bind_ok_total.
    apply (Hwrapped (fun n c => String.eqb (type n) "module_access"
                                && typeIs (previousSibling c) "::")
             (fun d => Concat [Text "::"; d])).
  - intros Hrest. unfold printBindField. rewrite (path_node_some _ Hn). cbn [bind].
    rewrite Hrest. rewrite bind_ok_total.
    apply (Hwrapped (fun _ c => typeIs (previousSibling c) "mut")
             (fun d => Concat [Text "mut "; d])).
  - unfold printModuleAccess, path_map. rewrite (path_node_some _ Hn). cbn [bind].
    rewrite bind_ok_total. apply mapM_ok_iff.
Qed.

Lemma children_decide_success_witness :
  (exists d, printTupleType (rootPath sampleTuple) defaultOptions walk = Ok d)
  /\ ~ (exists d, printTupleType (rootPath sampleTuple) defaultOptions
                    (walkUnless "bool") = Ok d).
Proof.
  split.
  - apply (proj1 (proj2 (children_decide_success (rootPath sampleTuple)
                           defaultOptions walk (n := sampleTuple) eq_refl))).
    intros c [<- | [<- | []]]; eexists; reflexivity.
  - intros H.
    pose proof (proj1 (proj1 (proj2 (children_decide_success (rootPath sampleTuple)
                           defaultOptions (walkUnless "bool") (n := sampleTuple)
                           eq_refl))) H) as Hall.
    destruct (Hall (mkPath (Some (leaf "primitive_type" "bool"))
                   [token ","; leaf "primitive_type" "u8"; token "("]
                   [token ")"] [sampleTuple])) as [d Hd].
    + right. left. reflexivity.
    + discriminate Hd.
Defined.

(** ** Reference types without a marker *)

(** X2.  [ref_type] succeeds exactly when the node has a first raw child and
    the callback succeeds on what [nonFormattingChildren\[0\]] walks to; on a
    node without children it throws a [TypeError] whatever the callback. *)
Theorem printRefType_succeeds_iff (path : AstPath) (n : Node)
  (options : ParserOptions) (print : printFn) :
  node path = Some n ->
  ((exists d, printRefType path options print = Ok d)
   <-> (exists marker, child n 0 = Some marker)
       /\ (exists ty, print (firstSignificantChild path n) = Ok ty))
  /\ (children n = [] -> printRefType path options print = Throw TypeError).
Proof.
  intros Hn. unfold printRefType. on_node Hn. split.
  - destruct (child n 0) as [marker |]; cbn [bind].
    + rewrite bind_ok_total. split; [intros H; split; eauto | tauto].
    + split; [intros [d H]; discriminate | intros [[marker H] _]; discriminate].
  - unfold child. intros ->. reflexivity.
Qed.

Lemma printRefType_succeeds_iff_witness :
  printRefType (rootPath sampleRefEmpty) defaultOptions walk = Throw TypeError
  /\ exists d, printRefType (rootPath sampleRef) defaultOptions walk = Ok d.
Proof.
  split.
  - apply (printRefType_succeeds_iff (rootPath sampleRefEmpty) defaultOptions walk
             (n := sampleRefEmpty) eq_refl).
    reflexivity.
  - apply (printRefType_succeeds_iff (rootPath sampleRef) defaultOptions walk
             (n := sampleRef) eq_refl).
    split; eexists; reflexivity.
Defined.

(** ** Expression fields and function types of other sizes *)

(** X3.  [exp_field] with one formatting-significant child returns what the
    callback returns for it, with no group around it; with two it returns the
    group of both documents around [": "]; with none it does not fail but
    returns a group around two undefined entries, a document that has no
    layout. *)
Theorem printExpressionField_small (path : AstPath) (n : Node)
  (options : ParserOptions) (print : printFn) :
  node path = Some n ->
  (forall c, significantChildren path n = [c] ->
      printExpressionField path options print = print c)
  /\ (forall c1 c2 d1 d2,
      significantChildren path n = [c1; c2] ->
      print c1 = Ok d1 -> print c2 = Ok d2 ->
      printExpressionField path options print
      = Ok (Group (Concat [d1; Text ": "; d2]) false))
  /\ (significantChildren path n = [] ->
      printExpressionField path options print
      = Ok (Group (Concat [Undefined; Text ": "; Undefined]) false)
      /\ flatTextOf (printExpressionField path options print) = None).
Proof.
  intros Hn. unfold printExpressionField. on_node Hn.
  refine (conj _ (conj _ _)).
  - intros c ->. simpl. destruct (print c); reflexivity.
  - intros c1 c2 d1 d2 -> H1 H2. simpl. rewrite H1, H2. reflexivity.
  - intros ->. split; reflexivity.
Qed.

Lemma printExpressionField_small_witness :
  printExpressionField (rootPath sampleExpFieldOne) defaultOptions walk = Ok (Text "x")
  /\ flatTextOf (printExpressionField (rootPath sampleExpFieldTwo) defaultOptions walk)
     = Some "x: y"
  /\ flatTextOf (printExpressionField (rootPath sampleExpFieldNone) defaultOptions walk)
     = None.
Proof.
  refine (conj _ (conj _ _)).
  - rewrite (proj1 (printExpressionField_small (rootPath sampleExpFieldOne)
                      defaultOptions walk (n := sampleExpFieldOne) eq_refl)
               (mkPath (Some (leaf "field_identifier" "x")) [] [] [sampleExpFieldOne])
               eq_refl).
    reflexivity.
  - rewrite (proj1 (proj2 (printExpressionField_small (rootPath sampleExpFieldTwo)
                             defaultOptions walk (n := sampleExpFieldTwo) eq_refl))
               (mkPath (Some (leaf "field_identifier" "x")) []
                  [token ":"; leaf "identifier" "y"] [sampleExpFieldTwo])
               (mkPath (Some (leaf "identifier" "y"))
                  [token ":"; leaf "field_identifier" "x"] [] [sampleExpFieldTwo])
               (Text "x") (Text "y") eq_refl eq_refl eq_refl).
    reflexivity.
  - apply (proj2 (proj2 (printExpressionField_small (rootPath sampleExpFieldNone)
                           defaultOptions walk (n := sampleExpFieldNone) eq_refl))).
    reflexivity.
Defined.

(** X4.  [function_type] with two or more formatting-significant children
    joins the documents of all of them by [" -> "]: none is left out, however
    many there are. *)
Theorem printFunctionType_joins_all (path : AstPath) (n : Node)
  (options : ParserOptions) (print : printFn) (docs : list Doc) :
  node path = Some n ->
  2 <= length (nonFormattingChildren n) ->
  mapM print (significantChildren path n) = Ok docs ->
  printFunctionType path options print = Ok (Join (Text " -> ") docs)
  /\ length docs = length (nonFormattingChildren n).
Proof.
  intros Hn Hlen Hdocs.
  pose proof (mapM_length _ _ Hdocs) as Hsame.
  rewrite significantChildren_length in Hsame.
  split; [| exact Hsame].
  unfold printFunctionType. on_node Hn. rewrite Hdocs. cbn [bind].
  destruct docs as [| d1 [| d2 rest]]; simpl in Hsame; try lia.
  reflexivity.
Qed.

Lemma printFunctionType_joins_all_witness :
  printFunctionType (rootPath sampleFunThree) defaultOptions walk
  = Ok (Join (Text " -> ") [Text "a"; Text "b"; Text "c"])
  /\ length [Text "a"; Text "b"; Text "c"] = length (nonFormattingChildren sampleFunThree).
Proof.
  apply (printFunctionType_joins_all (rootPath sampleFunThree) defaultOptions walk
           (n := sampleFunThree) (docs := [Text "a"; Text "b"; Text "c"]) eq_refl).
  - simpl. lia.
  - reflexivity.
Defined.

(** ** Bind lists *)

(** X5.  [bind_list] with exactly one formatting-significant child prints
    that child alone, without parentheses and without consulting the list
    helper; with any other number it returns the group, not forced to break,
    of what the helper returns for the delimiters ["("] and [")"], and fails
    when the helper fails. *)
Theorem printBindList_single_or_list (helpers : utilities.Helpers) (path : AstPath)
  (n : Node) (options : ParserOptions) (print : printFn) :
  node path = Some n ->
  (forall c d,
      significantChildren path n = [c] -> print c = Ok d ->
      printBindList path options print = Ok (Join (Text " ") [d])
      /\ flatTextOf (printBindList path options print) = flatText d)
  /\ (length (nonFormattingChildren n) <> 1 ->
      (forall items,
          utilities.list (listArgs path print options "(" ")" None None) = Ok items ->
          printBindList path options print = Ok (Group items false))
      /\ (forall e,
          utilities.list (listArgs path print options "(" ")" None None) = Throw e ->
          printBindList path options print = Throw e)).
Proof.
  intros Hn. unfold printBindList. rewrite (path_node_some _ Hn). cbn [bind].
  split.
  - intros c d Hsig Hd.
    pose proof (significantChildren_length path n) as Hlen.
    rewrite Hsig in Hlen. simpl in Hlen. rewrite <- Hlen. simpl.
    unfold path_map. rewrite (path_node_some _ Hn). cbn [bind].
    fold (significantChildren path n). rewrite Hsig. simpl. rewrite Hd.
    split; reflexivity.
  - intros Hlen. apply Nat.eqb_neq in Hlen. rewrite Hlen.
    split; intros x ->; reflexivity.
Qed.

Lemma printBindList_single_or_list_witness :
  flatTextOf (@printBindList throwingHelpers (rootPath sampleBindListOne)
                defaultOptions walk) = Some "x"
  /\ flatTextOf (@printBindList specHelpers (rootPath sampleBindListPair)
                   defaultOptions walk) = Some "(a, b)"
  /\ @printBindList throwingHelpers (rootPath sampleBindListPair) defaultOptions walk
     = Throw TypeError.
Proof.
  refine (conj _ (conj _ _)).
  - rewrite (proj2 (proj1 (@printBindList_single_or_list throwingHelpers
                             (rootPath sampleBindListOne) sampleBindListOne
                             defaultOptions walk eq_refl)
                      (mkPath (Some sampleBindVar) [] [] [sampleBindListOne])
                      (Concat [Text ""; Text "x"]) eq_refl eq_refl)).
    reflexivity.
  - rewrite (proj1 (proj2 (@printBindList_single_or_list specHelpers
                             (rootPath sampleBindListPair) sampleBindListPair
                             defaultOptions walk eq_refl)
                      ltac:(simpl; lia))
               (Concat [Text "("; Indent SoftLine;
                        Indent (Join (Concat [Text ","; Line]) [Text "a"; Text "b"]);
                        IfBreak (Text ",") (Text ""); SoftLine; Text ")"])
               eq_refl).
    reflexivity.
  - apply (proj2 (proj2 (@printBindList_single_or_list throwingHelpers
                           (rootPath sampleBindListPair) sampleBindListPair
                           defaultOptions walk eq_refl)
                    ltac:(simpl; lia))).
    reflexivity.
Defined.

(** ** Annotation expressions *)

Lemma mapM_annotation_callback (print : printFn) (cs : list AstPath) (docs : list Doc) :
  (forall c, In c cs -> exists m, node c = Some m) ->
  mapM print cs = Ok docs ->
  mapM (fun path : AstPath =>
          n <- path_node path ;;
          if String.eqb (type n) "module_access" && typeIs (previousSibling path) "::"
          then (d <- print path ;; Ok (Concat [Text "::"; d]))
          else print path) cs
  = Ok (map (fun cd => annotationOperandDoc (fst cd) (snd cd)) (combine cs docs)).
Proof.
  revert docs. induction cs as [| c rest IH]; intros docs Hnodes Hdocs.
  - reflexivity.
  - cbn [mapM] in *.
    destruct (Hnodes c (or_introl eq_refl)) as [m Hm].
    rewrite (path_node_some _ Hm). cbn [bind].
    destruct (print c) as [d | e]; cbn [bind] in Hdocs; [| discriminate].
    destruct (mapM print rest) as [ds | e] eqn:Hrest; cbn [bind] in Hdocs;
      [| discriminate].
    inversion Hdocs; subst docs. clear Hdocs.
    rewrite (IH ds); [| intros c' Hc'; apply Hnodes; right; exact Hc' | reflexivity].
    unfold annotationOperandDoc. cbn [combine map fst snd bind].
    rewrite Hm. cbn [typeIs].
    destruct (String.eqb (type m) "module_access" && typeIs (previousSibling c) "::");
      reflexivity.
Qed.

(** X6.  [annotation_expr] joins the documents of its formatting-significant
    children by [" = "]; the document of a [module_access] child that follows
    a ["::"] token gets that separator back in front, and every other
    document is taken as it is. *)
Theorem printAnnotationExpression_join (path : AstPath) (n : Node)
  (options : ParserOptions) (print : printFn) (docs : list Doc) :
  node path = Some n ->
  mapM print (significantChildren path n) = Ok docs ->
  printAnnotationExpression path options print
  = Ok (Join (Text " = ")
          (map (fun cd => annotationOperandDoc (fst cd) (snd cd))
             (combine (significantChildren path n) docs)))
  /\ (forall c m d,
      node c = Some m ->
      (type m = "module_access" -> typeIs (previousSibling c) "::" = true ->
       annotationOperandDoc c d = Concat [Text "::"; d])
      /\ (type m <> "module_access" \/ typeIs (previousSibling c) "::" = false ->
          annotationOperandDoc c d = d)).
Proof.
  intros Hn Hdocs. split.
  - unfold printAnnotationExpression, path_map.
    rewrite (path_node_some _ Hn). cbn [bind].
    fold (significantChildren path n).
    rewrite (@mapM_annotation_callback print (significantChildren path n) docs).
    + reflexivity.
    + intros c Hc. eapply significantChildren_on_node, Hc.
    + exact Hdocs.
  - intros c m d Hm. unfold annotationOperandDoc. rewrite Hm. cbn [typeIs].
    split.
    + intros -> ->. reflexivity.
    + intros [Hty | Hprev].
      * apply String.eqb_neq in Hty. rewrite Hty. reflexivity.
      * rewrite Hprev, andb_false_r. reflexivity.
Qed.

Lemma printAnnotationExpression_join_witness :
  printAnnotationExpression (rootPath sampleAnnotationExpr) defaultOptions walk
  = Ok (Join (Text " = ")
          [ Text "name";
            Concat [Text "::"; Concat [Text "std"; Text "::"; Text "vector"]] ])
  /\ flatTextOf (printAnnotationExpression (rootPath sampleAnnotationExpr)
                   defaultOptions walk)
     = Some "name = ::std::vector".
Proof.
  rewrite (proj1 (printAnnotationExpression_join (rootPath sampleAnnotationExpr)
                    defaultOptions walk (n := sampleAnnotationExpr)
                    (docs := [Text "name"; Concat [Text "std"; Text "::"; Text "vector"]])
                    eq_refl eq_refl)).
  split; reflexivity.
Defined.


(** ** Module access *)

Lemma childPaths_length (path : AstPath) (n : Node) :
  length (childPaths path n) = length (children n).
Proof.
  unfold childPaths.
  rewrite <- (length_map node), zipPaths_node, length_map. reflexivity.
Qed.

(** X7.  [module_access] walks the raw children, not the formatting-
    significant view: its document concatenates one document per raw child,
    tokens included, in source order.  [annotation_item] and [bind_unpack]
    concatenate one document per formatting-significant child. *)
Theorem printModuleAccess_every_child (path : AstPath) (n : Node)
  (options : ParserOptions) (print : printFn) :
  node path = Some n ->
  (forall docs,
      mapM print (childPaths path n) = Ok docs ->
      printModuleAccess path options print = Ok (Concat docs)
      /\ length docs = length (children n))
  /\ (forall docs,
      mapM print (significantChildren path n) = Ok docs ->
      printAnnotationItem path options print = Ok (Concat docs)
      /\ printBindUnpack path options print = Ok (Concat docs)
      /\ length docs = length (nonFormattingChildren n)).
Proof.
  intros Hn. split; intros docs Hdocs.
  - split.
    + unfold printModuleAccess, path_map. rewrite (path_node_some _ Hn).
      cbn [bind select]. rewrite Hdocs. reflexivity.
    + apply mapM_length in Hdocs. rewrite Hdocs. apply childPaths_length.
  - unfold printAnnotationItem, printBindUnpack. on_node Hn. rewrite Hdocs.
    repeat split.
    apply mapM_length in Hdocs.
    rewrite Hdocs. apply significantChildren_length.
Qed.

Lemma printModuleAccess_every_child_witness :
  printModuleAccess (rootPath sampleModuleAccess) defaultOptions walk
  = Ok (Concat [Text "std"; Text "::"; Text "vector"])
  /\ printAnnotationItem (rootPath sampleModuleAccess) defaultOptions walk
     = Ok (Concat [Text "std"; Text "vector"]).
Proof.
  split.
  - apply (proj1 (printModuleAccess_every_child (rootPath sampleModuleAccess)
                    defaultOptions walk (n := sampleModuleAccess) eq_refl)
             [Text "std"; Text "::"; Text "vector"] eq_refl).
  - apply (proj2 (printModuleAccess_every_child (rootPath sampleModuleAccess)
                    defaultOptions walk (n := sampleModuleAccess) eq_refl)
             [Text "std"; Text "vector"] eq_refl).
Defined.

(** ** Groups that are never forced to break *)

(** X8.  Whatever the node, the options, the callback and the list helper,
    the document that [ref_type], [tuple_type], [annotation],
    [lambda_bindings] and [function_type_parameters] return is a group whose
    [shouldBreak] flag is false; so is the document of a [bind_list] that
    does not have exactly one formatting-significant child. *)
Theorem group_wrappers_never_force_break (helpers : utilities.Helpers)
  (path : AstPath) (options : ParserOptions) (print : printFn) (d : Doc) :
  printRefType path options print = Ok d
  \/ printTupleType path options print = Ok d
  \/ printAnnotation path options print = Ok d
  \/ printLambdaBindings path options print = Ok d
  \/ printFunctionTypeParameters path options print = Ok d
  \/ (printBindList path options print = Ok d
      /\ exists n, node path = Some n /\ length (nonFormattingChildren n) <> 1) ->
  exists contents, d = Group contents false.
Proof.
  intros [H | [H | [H | [H | [H | [H [n [Hn Hlen]]]]]]]].
  - unfold printRefType in H.
    apply bind_ok_inv in H. destruct H as [n [_ H]].
    apply bind_ok_inv in H. destruct H as [ref [_ H]].
    apply bind_ok_inv in H. destruct H as [ty [_ H]].
    inversion H. eexists. reflexivity.
  - unfold printTupleType in H.
    apply bind_ok_inv in H. destruct H as [docs [_ H]].
    inversion H. eexists. reflexivity.
  - unfold printAnnotation in H.
    apply bind_ok_inv in H. destruct H as [items [_ H]].
    inversion H. eexists. reflexivity.
  - unfold printLambdaBindings in H.
    apply bind_ok_inv in H. destruct H as [items [_ H]].
    inversion H. eexists. reflexivity.
  - unfold printFunctionTypeParameters in H.
    apply bind_ok_inv in H. destruct H as [items [_ H]].
    inversion H. eexists. reflexivity.
  - unfold printBindList in H. rewrite (path_node_some _ Hn) in H. cbn [bind] in H.
    apply Nat.eqb_neq in Hlen. rewrite Hlen in H.
    apply bind_ok_inv in H. destruct H as [items [_ H]].
    inversion H. eexists. reflexivity.
Qed.

Lemma group_wrappers_never_force_break_witness :
  exists contents,
    Group (Concat [Text "|"; Indent SoftLine;
                   Indent (Join (Concat [Text ","; Line]) [Text "x"]);
                   IfBreak (Text ",") (Text ""); SoftLine; Text "|"]) false
    = Group contents false.
Proof.
  apply (@group_wrappers_never_force_break specHelpers
           (rootPath (branch "lambda_bindings" "|x|"
                        [token "|"; leaf "variable_identifier" "x"; token "|"]))
           defaultOptions walk).
  right. right. right. left. reflexivity.
Defined.

(** ** The dispatch table *)

(** X9.  The members of [Common] stand for pairwise different strings, and on
    a node of the kind of a member the dispatch answers with the procedure
    written under the case of that member: no case is shadowed by another. *)
Theorem dispatch_selects_own_case (helpers : utilities.Helpers) :
  (forall k1 k2, Common_value k1 = Common_value k2 -> k1 = k2)
  /\ (forall path n kind,
      node path = Some n ->
      type n = Common_value kind ->
      default path = Ok (Some (procedureFor kind))).
Proof.
  split.
  - intros k1 k2 H. destruct k1, k2; solve [reflexivity | discriminate H].
  - intros path n kind Hn Hty.
    destruct kind; dispatch Hn Hty; reflexivity.
Qed.

Lemma dispatch_selects_own_case_witness :
  @default specHelpers pathBindVarMut = Ok (Some printBindVar).
Proof.
  exact (proj2 (@dispatch_selects_own_case specHelpers) pathBindVarMut sampleBindVar
           BindVar eq_refl eq_refl).
Defined.

(** ** Labels, aliases and delegating kinds *)

(** X10.  On a [label] node the procedure the dispatch selects never fails
    and reads the callback, the children and the previous sibling not at
    all: it prints the text of the node, followed by a colon exactly when the
    next sibling of the node is a [":"] token. *)
Theorem label_colon_from_next_sibling (helpers : utilities.Helpers) (path : AstPath)
  (n : Node) (options : ParserOptions) (print : printFn) :
  node path = Some n ->
  type n = Common_value Label ->
  exists procedure,
    default path = Ok (Some procedure)
    /\ (typeIs (nextSibling path) ":" = true ->
        procedure path options print = Ok (Concat [Text (text n); Text ":"])
        /\ flatTextOf (procedure path options print) = Some (text n ++ ":"))
    /\ (typeIs (nextSibling path) ":" = false ->
        procedure path options print = Ok (Text (text n))).
Proof.
  intros Hn Hty. exists printLabel. split; [dispatch Hn Hty; reflexivity |].
  unfold printLabel. rewrite (path_node_some _ Hn). cbn [bind].
  split; intros ->; [| reflexivity].
  split; reflexivity.
Qed.

Lemma label_colon_from_next_sibling_witness :
  (exists procedure,
      @default specHelpers pathLabelBeforeColon = Ok (Some procedure)
      /\ flatTextOf (procedure pathLabelBeforeColon defaultOptions walk)
         = Some "loop_a:")
  /\ (exists procedure,
      @default specHelpers pathLabelInBreak = Ok (Some procedure)
      /\ procedure pathLabelInBreak defaultOptions walk = Ok (Text "loop_a")).
Proof.
  split.
  - destruct (@label_colon_from_next_sibling specHelpers pathLabelBeforeColon
                sampleLabel defaultOptions walk eq_refl eq_refl)
      as [procedure [Hdefault [Hcolon _]]].
    exists procedure. split; [exact Hdefault |].
    exact (proj2 (Hcolon eq_refl)).
  - destruct (@label_colon_from_next_sibling specHelpers pathLabelInBreak
                sampleLabel defaultOptions walk eq_refl eq_refl)
      as [procedure [Hdefault [_ Hplain]]].
    exists procedure. split; [exact Hdefault |].
    exact (Hplain eq_refl).
Defined.

(** X11.  [bind_fields] and [block_identifier] are transparent: they return
    the outcome of the callback on the first formatting-significant child,
    failure included, and [alias] puts ["as "] before that document.  On a
    node without formatting-significant children the callback is still
    consulted, on the undefined node. *)
Theorem delegates_to_first_child (path : AstPath) (n : Node)
  (options : ParserOptions) (print : printFn) :
  node path = Some n ->
  printBindFields path options print = print (firstSignificantChild path n)
  /\ printBlockIdentifier path options print = print (firstSignificantChild path n)
  /\ (forall d, print (firstSignificantChild path n) = Ok d ->
        printAlias path options print = Ok (Concat [Text "as "; d])
        /\ forall t, flatText d = Some t ->
             flatTextOf (printAlias path options print) = Some ("as " ++ t))
  /\ (forall e, print (firstSignificantChild path n) = Throw e ->
        printAlias path options print = Throw e)
  /\ (nonFormattingChildren n = [] ->
      firstSignificantChild path n = undefinedPath path n
      /\ node (firstSignificantChild path n) = None).
Proof.
  intros Hn.
  refine (conj _ (conj _ (conj _ (conj _ _)))).
  - unfold printBindFields. on_node Hn. reflexivity.
  - unfold printBlockIdentifier. on_node Hn. reflexivity.
  - intros d Hd. unfold printAlias. on_node Hn. rewrite Hd. cbn [bind].
    split; [reflexivity |]. intros t Ht. simpl. rewrite Ht.
    now rewrite append_empty_r.
  - intros e He. unfold printAlias. on_node Hn. rewrite He. reflexivity.
  - intros Hnone.
    pose proof (significantChildren_length path n) as Hlen.
    rewrite Hnone in Hlen. simpl in Hlen.
    unfold firstSignificantChild.
    destruct (significantChildren path n); [| discriminate].
    split; reflexivity.
Qed.

Lemma delegates_to_first_child_witness :
  flatTextOf (printAlias (rootPath sampleAlias) defaultOptions walk) = Some "as T"
  /\ printBlockIdentifier (rootPath sampleExpFieldNone) defaultOptions walk
     = Throw TypeError.
Proof.
  split.
  - apply (proj1 (proj2 (proj2 (delegates_to_first_child (rootPath sampleAlias)
                                  defaultOptions walk (n := sampleAlias) eq_refl)))
             (Text "T") eq_refl).
    reflexivity.
  - rewrite (proj1 (proj2 (delegates_to_first_child (rootPath sampleExpFieldNone)
                             defaultOptions walk (n := sampleExpFieldNone) eq_refl))).
    reflexivity.
Defined.

(** ** The undefined node *)

(** X12.  The dispatch has an answer exactly on a path that stands on a node.
    On the undefined node it throws a [TypeError], and so does every
    procedure that reads the node or walks into it before anything else,
    whatever the callback and the options. *)
Theorem undefined_node_throws (helpers : utilities.Helpers) (path : AstPath)
  (options : ParserOptions) (print : printFn) :
  ((exists answer, default path = Ok answer) <-> (exists n, node path = Some n))
  /\ (node path = None ->
      default path = Throw TypeError
      /\ Forall (fun procedure : treeFn => procedure path options print = Throw TypeError)
           [ printPrimitiveType; printVariableIdentifier; printModuleAccess;
             printIdentifier; printRefType; printFunctionType; printBinaryOperator;
             printFieldIdentifier; printAbility; printTupleType; printAnnotationItem;
             printAnnotationList; printAnnotationExpression; printBindUnpack;
             printBindFields; printBindField; printBindList; printBindVar;
             printLabel; printAlias; printBlockIdentifier; printUnaryOperator;
             printExpressionField ]).
Proof.
  split.
  - unfold default, path_node. destruct (node path) as [n |]; cbn [bind].
    + split; eauto.
    + split; [intros [answer H]; discriminate | intros [n H]; discriminate].
  - intros Hnone.
    assert (Hthrow : path_node path = Throw TypeError)
      by (unfold path_node; now rewrite Hnone).
    split; [unfold default; now rewrite Hthrow |].
    repeat constructor;
      unfold printPrimitiveType, printVariableIdentifier, printModuleAccess,
        printIdentifier, printRefType, printFunctionType, printBinaryOperator,
        printFieldIdentifier, printAbility, printTupleType, printAnnotationItem,
        printAnnotationList, printAnnotationExpression, printBindUnpack,
        printBindFields, printBindField, printBindList, printBindVar, printLabel,
        printAlias, printBlockIdentifier, printUnaryOperator, printExpressionField,
        path_map, path_call;
      rewrite Hthrow; reflexivity.
Qed.

Lemma undefined_node_throws_witness :
  @default specHelpers (undefinedPath (rootPath sampleExpFieldNone) sampleExpFieldNone)
  = Throw TypeError.
Proof.
  apply (@undefined_node_throws specHelpers
           (undefinedPath (rootPath sampleExpFieldNone) sampleExpFieldNone)
           defaultOptions walk).
  reflexivity.
Defined.

(** ** Success and failure of the procedures built on the list helper *)

(** X13.  The procedures that hand the whole node to the list helper have no
    failure of their own: each succeeds exactly when the helper does, and
    throws what the helper throws.  [annotation_list] prints the first
    formatting-significant child before it consults the helper: it succeeds
    exactly when the callback succeeds on that child and the helper succeeds;
    when the callback throws, that exception is the one thrown, whatever the
    helper would have thrown, and the exception of the helper is thrown only
    once the callback has succeeded. *)
Theorem helper_decides_success (helpers : utilities.Helpers) (path : AstPath)
  (options : ParserOptions) (print : printFn) :
  let listOk open close addWhitespace skipChildren :=
    exists items,
      utilities.list (listArgs path print options open close addWhitespace skipChildren)
      = Ok items in
  ((exists d, printAnnotation path options print = Ok d) <-> listOk "[" "]" None None)
  /\ ((exists d, printLambdaBindings path options print = Ok d)
      <-> listOk "|" "|" None None)
  /\ ((exists d, printFunctionTypeParameters path options print = Ok d)
      <-> listOk "|" "|" None None)
  /\ ((exists d, printBindNamedFields path options print = Ok d)
      <-> listOk "{" "}" (Some true) None)
  /\ ((exists d, printFieldInitializeList path options print = Ok d)
      <-> listOk "{" "}" (Some true) None)
  /\ ((exists d, printBindPositionalFields path options print = Ok d)
      <-> listOk "(" ")" None None)
  /\ ((exists d, printAnnotationList path options print = Ok d)
      <-> (exists first,
              path_call print path prop_nonFormattingChildren 0 = Ok first)
          /\ listOk "(" ")" None (Some 1))
  /\ (forall e,
      path_call print path prop_nonFormattingChildren 0 = Throw e ->
      printAnnotationList path options print = Throw e)
  /\ (forall first e,
      path_call print path prop_nonFormattingChildren 0 = Ok first ->
      utilities.list (listArgs path print options "(" ")" None (Some 1)) = Throw e ->
      printAnnotationList path options print = Throw e)
  /\ (forall e,
      (utilities.list (listArgs path print options "[" "]" None None) = Throw e ->
       printAnnotation path options print = Throw e)
      /\ (utilities.list (listArgs path print options "|" "|" None None) = Throw e ->
          printLambdaBindings path options print = Throw e
          /\ printFunctionTypeParameters path options print = Throw e)
      /\ (utilities.list (listArgs path print options "{" "}" (Some true) None) = Throw e ->
          printBindNamedFields path options print = Throw e
          /\ printFieldInitializeList path options print = Throw e)
      /\ (utilities.list (listArgs path print options "(" ")" None None) = Throw e ->
          printBindPositionalFields path options print = Throw e)).
Proof.
  intros listOk. unfold listOk.
  refine (conj _ (conj _ (conj _ (conj _ (conj _ (conj _ (conj _ (conj _ (conj _ _))))))))).
  - unfold printAnnotation. apply bind_ok_total.
  - unfold printLambdaBindings. apply bind_ok_total.
  - unfold printFunctionTypeParameters. apply bind_ok_total.
  - unfold printBindNamedFields. apply bind_ok_total.
  - unfold printFieldInitializeList. apply bind_ok_total.
  - unfold printBindPositionalFields. apply bind_ok_total.
  - unfold printAnnotationList.
    destruct (path_call print path prop_nonFormattingChildren 0) as [first | e];
      cbn [bind].
    + rewrite bind_ok_total. split; [intros H; split; eauto | tauto].
    + split; [intros [d H]; discriminate | intros [[first H] _]; discriminate].
  - intros e He. unfold printAnnotationList. rewrite He. reflexivity.
  - intros first e Hfirst He. unfold printAnnotationList. rewrite Hfirst. cbn [bind].
    rewrite He. reflexivity.
  - intros e.
    unfold printAnnotation, printLambdaBindings, printFunctionTypeParameters,
      printBindNamedFields, printFieldInitializeList, printBindPositionalFields.
    refine (conj _ (conj _ (conj _ _))); intros ->; try split; reflexivity.
Qed.

Lemma helper_decides_success_witness :
  (exists d, @printLambdaBindings specHelpers (rootPath sampleBindListPair)
               defaultOptions walk = Ok d)
  /\ ~ (exists d, @printLambdaBindings throwingHelpers (rootPath sampleBindListPair)
                    defaultOptions walk = Ok d)
  /\ @printAnnotationList (failingHelpers "helper") (rootPath sampleAlias)
       defaultOptions (failingPrint "callback") = Throw (Thrown "callback")
  /\ @printAnnotationList (failingHelpers "helper") (rootPath sampleAlias)
       defaultOptions walk = Throw (Thrown "helper").
Proof.
  refine (conj _ (conj _ (conj _ _))).
  - apply (proj1 (proj2 (@helper_decides_success specHelpers
                           (rootPath sampleBindListPair) defaultOptions walk))).
    eexists. reflexivity.
  - intros H.
    destruct (proj1 (proj1 (proj2 (@helper_decides_success throwingHelpers
                                     (rootPath sampleBindListPair) defaultOptions walk)))
                H) as [items Hitems].
    discriminate Hitems.
  - apply (proj1 (proj2 (proj2 (proj2 (proj2 (proj2 (proj2 (proj2
             (@helper_decides_success (failingHelpers "helper") (rootPath sampleAlias)
                defaultOptions (failingPrint "callback")))))))))).
    reflexivity.
  - apply (proj1 (proj2 (proj2 (proj2 (proj2 (proj2 (proj2 (proj2 (proj2
             (@helper_decides_success (failingHelpers "helper") (rootPath sampleAlias)
                defaultOptions walk)))))))))
             (Text "T")).
    + reflexivity.
    + reflexivity.
Defined.

(** * Properties of the transaction block features *)

(** ** Chunks *)

Lemma slice_shift {T : Type} (arr : list T) (size i : nat) :
  TransactionBlock.slice arr (S i * size) (S i * size + size)
  = TransactionBlock.slice (skipn size arr) (i * size) (i * size + size).
Proof.
  unfold TransactionBlock.slice. rewrite skipn_skipn.
  replace (S i * size + size - S i * size) with size by lia.
  replace (i * size + size - i * size) with size by lia.
  f_equal. f_equal. simpl. lia.
Qed.

Lemma slices_shift {T : Type} (arr : list T) (size k : nat) :
  map (fun i => TransactionBlock.slice arr (i * size) (i * size + size)) (seq 0 (S k))
  = firstn size arr
    :: map (fun i => TransactionBlock.slice (skipn size arr) (i * size) (i * size + size))
         (seq 0 k).
Proof.
  cbn [seq map]. f_equal.
  - unfold TransactionBlock.slice. simpl. now rewrite Nat.sub_0_r.
  - rewrite <- seq_shift, map_map. apply map_ext. intros i. apply slice_shift.
Qed.

Lemma slices_concat {T : Type} (size k : nat) (arr : list T) :
  length arr <= k * size ->
  concat (map (fun i => TransactionBlock.slice arr (i * size) (i * size + size)) (seq 0 k))
  = arr.
Proof.
  revert arr. induction k as [| k IH]; intros arr Hlen.
  - simpl in *. destruct arr; [reflexivity | simpl in Hlen; lia].
  - rewrite slices_shift. cbn [concat]. rewrite IH.
    + apply firstn_skipn.
    + rewrite length_skipn. simpl in Hlen. lia.
Qed.

Lemma ceilOfQuotient_bounds (a b : nat) :
  0 < b ->
  a <= TransactionBlock.ceilOfQuotient a b * b
  /\ (0 < a -> (TransactionBlock.ceilOfQuotient a b - 1) * b < a).
Proof.
  intros Hb. unfold TransactionBlock.ceilOfQuotient.
  pose proof (Nat.div_mod_eq a b) as Hdiv.
  pose proof (Nat.mod_upper_bound a b ltac:(lia)) as Hmod.
  destruct (Nat.eqb_spec (a mod b) 0) as [Hzero | Hpos].
  - split; [nia |]. intros Ha.
    assert (0 < a / b) by (destruct (a / b); [nia | lia]). nia.
  - split; [nia |]. intros _. simpl. nia.
Qed.

(** X14.  For a positive [size], [chunk] loses nothing and reorders nothing:
    the chunks laid end to end are the array itself, and there are
    [ceil(length / size)] of them, none for the empty array.  So the result
    of fetching chunk by chunk and flattening lines up, index by index, with
    the array that was cut. *)
Theorem chunk_concat {T : Type} (arr : list T) (size : nat) :
  0 < size ->
  exists chunks,
    TransactionBlock.chunk arr size = TransactionBlock.Done chunks
    /\ concat chunks = arr
    /\ length chunks = TransactionBlock.ceilOfQuotient (length arr) size
    /\ (arr = [] -> chunks = []).
Proof.
  intros Hsize. unfold TransactionBlock.chunk.
  destruct size as [| size']; [lia |].
  eexists. split; [reflexivity |]. split; [| split].
  - apply slices_concat. apply ceilOfQuotient_bounds. lia.
  - now rewrite length_map, length_seq.
  - intros ->. unfold TransactionBlock.ceilOfQuotient. cbn [length].
    rewrite Nat.Div0.mod_0_l, Nat.Div0.div_0_l. reflexivity.
Qed.

Lemma chunk_concat_witness :
  exists chunks,
    TransactionBlock.chunk [1; 2; 3; 4; 5] 2 = TransactionBlock.Done chunks
    /\ concat chunks = [1; 2; 3; 4; 5]
    /\ length chunks = TransactionBlock.ceilOfQuotient (length [1; 2; 3; 4; 5]) 2
    /\ ([1; 2; 3; 4; 5] = [] -> chunks = []).
Proof.
  apply (@chunk_concat nat [1; 2; 3; 4; 5] 2). lia.
Defined.

Lemma slice_length {T : Type} (arr : list T) (start stop : nat) :
  length (TransactionBlock.slice arr start stop)
  = Nat.min (stop - start) (length arr - start).
Proof.
  unfold TransactionBlock.slice. now rewrite length_firstn, length_skipn.
Qed.

Lemma nth_error_slices {T : Type} (arr : list T) (size k i : nat) (c : list T) :
  nth_error
    (map (fun i => TransactionBlock.slice arr (i * size) (i * size + size)) (seq 0 k)) i
  = Some c ->
  i < k /\ c = TransactionBlock.slice arr (i * size) (i * size + size).
Proof.
  intros H.
  assert (Hi : i < k).
  { assert (Hsome : nth_error
       (map (fun i => TransactionBlock.slice arr (i * size) (i * size + size)) (seq 0 k)) i
       <> None) by (rewrite H; discriminate).
    apply nth_error_Some in Hsome. now rewrite length_map, length_seq in Hsome. }
  split; [exact Hi |].
  rewrite nth_error_map in H.
  rewrite (nth_error_nth' (seq 0 k) 0) in H by (now rewrite length_seq).
  rewrite seq_nth in H by exact Hi. simpl in H. now inversion H.
Qed.

(** X15.  For a positive [size], no chunk is empty and none has more than
    [size] elements, and every chunk but the last has exactly [size]; cut by
    [MAX_OBJECTS_PER_FETCH], no chunk asks for more than fifty objects. *)
Theorem chunk_sizes {T : Type} (arr : list T) (size : nat) (chunks : list (list T)) :
  0 < size ->
  TransactionBlock.chunk arr size = TransactionBlock.Done chunks ->
  (forall i c,
      nth_error chunks i = Some c ->
      0 < length c <= size
      /\ (S i < length chunks -> length c = size))
  /\ (size = TransactionBlock.MAX_OBJECTS_PER_FETCH ->
      Forall (fun c => length c <= 50) chunks).
Proof.
  intros Hsize Hchunk.
  assert (Hall : forall i c,
             nth_error chunks i = Some c ->
             0 < length c <= size /\ (S i < length chunks -> length c = size)).
  { unfold TransactionBlock.chunk in Hchunk.
    destruct size as [| size']; [lia |].
    inversion Hchunk as [Hchunks]. clear Hchunk.
    remember (S size') as size eqn:Hs.
    intros i c Hc. rewrite length_map, length_seq.
    apply nth_error_slices in Hc. destruct Hc as [Hi ->].
    rewrite slice_length.
    replace (i * size + size - i * size) with size by lia.
    destruct (ceilOfQuotient_bounds (length arr) Hsize) as [_ Hlast].
    remember (TransactionBlock.ceilOfQuotient (length arr) size) as k eqn:Hk.
    assert (Hpos : 0 < length arr).
    { destruct arr; [| simpl; lia]. exfalso.
      unfold TransactionBlock.ceilOfQuotient in Hk. cbn [length] in Hk.
      rewrite Nat.Div0.mod_0_l, Nat.Div0.div_0_l in Hk. simpl in Hk. lia. }
    specialize (Hlast Hpos).
    assert (Hi' : i * size <= (k - 1) * size)
      by (apply Nat.mul_le_mono_r; lia).
    split; [lia |].
    intros Hnext.
    assert (Hnext' : S i * size <= (k - 1) * size)
      by (apply Nat.mul_le_mono_r; lia).
    simpl in Hnext'. lia. }
  split; [exact Hall |].
  intros Hmax. apply Forall_forall. intros c Hc.
  apply In_nth_error in Hc. destruct Hc as [i Hi].
  destruct (Hall i c Hi) as [[_ Hle] _].
  unfold TransactionBlock.MAX_OBJECTS_PER_FETCH in Hmax. lia.
Qed.

Lemma chunk_sizes_witness :
  (forall i c,
      nth_error [[1; 2]; [3; 4]; [5]] i = Some c ->
      0 < length c <= 2
      /\ (S i < length [[1; 2]; [3; 4]; [5]] -> length c = 2))
  /\ (2 = TransactionBlock.MAX_OBJECTS_PER_FETCH ->
      Forall (fun c => length c <= 50) [[1; 2]; [3; 4]; [5]]).
Proof.
  apply (@chunk_sizes nat [1; 2; 3; 4; 5] 2 [[1; 2]; [3; 4]; [5]]).
  - lia.
  - reflexivity.
Defined.

Import TransactionBlock.

(** ** Hooks *)

(** X16.  [#runHook] runs the hooks in the order of the plugins.  Without
    plugins it resolves and leaves the block data alone; a plugin without the
    hook is passed over; a hook that resolves hands the block data it leaves
    to the hooks of the later plugins, so that the run over a single plugin
    is that plugin's hook; a hook that rejects ends the run with its error
    and its block data, and no later hook runs.  Hence the run over two lists
    of plugins one after the other is the run over the first and, if that
    resolves, the run over the second on the block data the first left. *)
Theorem runHook_composes {host : Host} {Args : Type}
  (hook : TransactionBlockPlugin.t -> option (Args -> Async unit))
  (args : Args) :
  (forall before after blockData,
      runHook hook (before ++ after) args blockData
      = andThen (runHook hook before args) (fun _ => runHook hook after args) blockData)
  /\ (forall plugins blockData,
      runHook hook plugins args blockData
      = runHook hook
          (filter (fun plugin => match hook plugin with
                                 | Some _ => true
                                 | None => false
                                 end) plugins)
          args blockData)
  /\ (forall plugin run rest blockData f blockData',
      hook plugin = Some run ->
      run args blockData = (Failed f, blockData') ->
      runHook hook (plugin :: rest) args blockData = (Failed f, blockData'))
  /\ (forall blockData, runHook hook [] args blockData = (Done tt, blockData))
  /\ (forall plugin run rest blockData blockData',
      hook plugin = Some run ->
      run args blockData = (Done tt, blockData') ->
      runHook hook (plugin :: rest) args blockData = runHook hook rest args blockData')
  /\ (forall plugin run blockData,
      hook plugin = Some run ->
      runHook hook [plugin] args blockData = run args blockData)
  /\ (forall plugin rest blockData,
      hook plugin = None ->
      runHook hook (plugin :: rest) args blockData = runHook hook rest args blockData).
Proof.
  refine (conj _ (conj _ (conj _ (conj _ (conj _ (conj _ _)))))).
  - induction before as [| plugin before IH]; intros after blockData.
    + reflexivity.
    + cbn [app runHook]. destruct (hook plugin) as [run |]; [| apply IH].
      unfold andThen.
      destruct (run args blockData) as [[[] | f] blockData']; [| reflexivity].
      rewrite IH. reflexivity.
  - induction plugins as [| plugin plugins IH]; intros blockData.
    + reflexivity.
    + cbn [filter runHook]. destruct (hook plugin) as [run |] eqn:Hhook.
      * cbn [runHook]. rewrite Hhook. unfold andThen.
        destruct (run args blockData) as [[[] | f] blockData']; [apply IH | reflexivity].
      * apply IH.
  - intros plugin run rest blockData f blockData' Hhook Hrun.
    cbn [runHook]. rewrite Hhook. unfold andThen. rewrite Hrun. reflexivity.
  - reflexivity.
  - intros plugin run rest blockData blockData' Hhook Hrun.
    cbn [runHook]. rewrite Hhook. unfold andThen. rewrite Hrun. reflexivity.
  - intros plugin run blockData Hhook.
    cbn [runHook]. rewrite Hhook. unfold andThen, resolve.
    destruct (run args blockData) as [[[] | f] blockData']; reflexivity.
  - intros plugin rest blockData Hhook. cbn [runHook]. rewrite Hhook. reflexivity.
Qed.

Lemma runHook_composes_witness :
  @runHook sampleHost unit TransactionBlockPlugin.setGasPrice
    ([TransactionBlockPlugin.mk None None None None None None] ++ [samplePricePlugin])
    tt sampleBlock
  = (Done tt, @withPrice sampleHost sampleBlock 5%Z)
  /\ @runHook sampleHost unit TransactionBlockPlugin.setGasPrice
       [samplePricePlugin; sampleDoublingPlugin] tt sampleBlock
     = (Done tt, @withPrice sampleHost sampleBlock 10%Z).
Proof.
  split.
  - rewrite (proj1 (@runHook_composes sampleHost unit TransactionBlockPlugin.setGasPrice tt)).
    reflexivity.
  - rewrite (proj1 (proj2 (proj2 (proj2 (proj2
               (@runHook_composes sampleHost unit TransactionBlockPlugin.setGasPrice tt)))))
               samplePricePlugin
               (fun _ blockData =>
                  (Done tt, @withPrice sampleHost blockData 5%Z))
               [sampleDoublingPlugin] sampleBlock
               (@withPrice sampleHost sampleBlock 5%Z) eq_refl eq_refl).
    rewrite (proj1 (proj2 (proj2 (proj2 (proj2 (proj2
               (@runHook_composes sampleHost unit TransactionBlockPlugin.setGasPrice tt))))))
               sampleDoublingPlugin _ (@withPrice sampleHost sampleBlock 5%Z) eq_refl).
    reflexivity.
Defined.

(** ** Validation *)

Lemma checkInputs_within {host : Host} (options : ValidateOptions) (index : nat)
  (inputs : list CallArg) :
  Forall (fun input => forall len, pureLength input = Some len ->
                                   (Z.of_nat len <= maxPureArgumentSize options)%Z) inputs ->
  checkInputs options index inputs = Done tt.
Proof.
  revert index. induction inputs as [| input rest IH]; intros index Hall.
  - reflexivity.
  - inversion Hall as [| ? ? Hinput Hrest]; subst. cbn [checkInputs].
    destruct (pureLength input) as [len |]; [| apply IH, Hrest].
    specialize (Hinput len eq_refl).
    destruct (Z.gtb_spec (Z.of_nat len) (maxPureArgumentSize options)); [lia |].
    apply IH, Hrest.
Qed.

Lemma checkInputs_first_too_large {host : Host} (options : ValidateOptions)
  (index : nat) (before : list CallArg) (input : CallArg) (after : list CallArg)
  (len : nat) :
  Forall (fun input => forall len, pureLength input = Some len ->
                                   (Z.of_nat len <= maxPureArgumentSize options)%Z) before ->
  pureLength input = Some len ->
  (Z.of_nat len > maxPureArgumentSize options)%Z ->
  checkInputs options index (before ++ input :: after)
  = Failed (InputTooLarge (index + length before) (maxPureArgumentSize options) len).
Proof.
  revert index. induction before as [| b before IH]; intros index Hall Hlen Hlarge.
  - cbn [app checkInputs length]. rewrite Hlen.
    destruct (Z.gtb_spec (Z.of_nat len) (maxPureArgumentSize options)); [| lia].
    now rewrite Nat.add_0_r.
  - inversion Hall as [| ? ? Hb Hrest]; subst. cbn [app checkInputs length].
    replace (index + S (Datatypes.length before)) with (S index + Datatypes.length before) by lia.
    destruct (pureLength b) as [lenb |]; [| now apply IH].
    specialize (Hb lenb eq_refl).
    destruct (Z.gtb_spec (Z.of_nat lenb) (maxPureArgumentSize options)); [lia |].
    now apply IH.
Qed.

(** X17.  Once the hooks have resolved, [validate] resolves, leaving the
    block data as the hooks left it, when every pure input is at most
    [maxPureArgumentSize] bytes long; otherwise it rejects with the index and
    the length of the first pure input that is longer.  Inputs that are not
    pure are not looked at.  When a hook rejects, no input is checked. *)
Theorem validate_checks_pure_inputs {host : Host}
  (plugins : list TransactionBlockPlugin.t) (options : ValidateOptions)
  (blockData : BlockData) :
  let withinLimit := fun input => forall len, pureLength input = Some len ->
                       (Z.of_nat len <= maxPureArgumentSize options)%Z in
  (forall hooked,
      runHook TransactionBlockPlugin.validate plugins options blockData = (Done tt, hooked) ->
      (Forall withinLimit (inputs hooked) ->
       validate plugins options blockData = (Done tt, hooked))
      /\ (forall before input after len,
          inputs hooked = (before ++ input :: after)%list ->
          Forall withinLimit before ->
          pureLength input = Some len ->
          (Z.of_nat len > maxPureArgumentSize options)%Z ->
          validate plugins options blockData
          = (Failed (InputTooLarge (length before) (maxPureArgumentSize options) len),
             hooked)))
  /\ (forall f hooked,
      runHook TransactionBlockPlugin.validate plugins options blockData = (Failed f, hooked) ->
      validate plugins options blockData = (Failed f, hooked)).
Proof.
  intros withinLimit. split.
  - intros hooked Hhooks. unfold validate, andThen, await. rewrite Hhooks. split.
    + intros Hall. now rewrite checkInputs_within.
    + intros before input after len Hinputs Hbefore Hlen Hlarge.
      rewrite Hinputs.
      now rewrite (@checkInputs_first_too_large host options 0 before input after len
                     Hbefore Hlen Hlarge).
  - intros f hooked Hhooks. unfold validate, andThen. rewrite Hhooks. reflexivity.
Qed.

Lemma validate_checks_pure_inputs_witness :
  @validate sampleHost [] (mkValidateOptions 16) sampleBlock = (Done tt, sampleBlock)
  /\ @validate sampleHost [] (mkValidateOptions 4) sampleBlock
     = (Failed (InputTooLarge 2 4 5), sampleBlock).
Proof.
  split.
  - apply (proj1 (@validate_checks_pure_inputs sampleHost [] (mkValidateOptions 16)
                    sampleBlock) sampleBlock eq_refl).
    repeat constructor; intros len; destruct len; simpl; intros H;
      inversion H; lia.
  - apply (proj2 (proj1 (@validate_checks_pure_inputs sampleHost []
                           (mkValidateOptions 4) sampleBlock) sampleBlock eq_refl)
             [SampleOwned "0xb"; SamplePure [1; 2; 3]] (SamplePure [1; 2; 3; 4; 5]) []
             5 eq_refl).
    + repeat constructor; intros len H; simpl in H; inversion H; simpl; lia.
    + reflexivity.
    + simpl. lia.
Defined.

(** ** Gas payment *)

Lemma sliceFromStart_length {T : Type} (arr : list T) (stop : Z) :
  (0 <= stop)%Z -> (Z.of_nat (length (sliceFromStart arr stop)) <= stop)%Z.
Proof.
  intros Hstop. unfold sliceFromStart.
  destruct (Z.ltb_spec stop 0); [lia |].
  rewrite length_firstn. lia.
Qed.

Lemma in_firstn {T : Type} (k : nat) (arr : list T) (x : T) :
  In x (firstn k arr) -> In x arr.
Proof.
  intros H. rewrite <- (firstn_skipn k arr). apply in_or_app. left. exact H.
Qed.

Lemma sliceFromStart_incl {T : Type} (arr : list T) (stop : Z) (x : T) :
  In x (sliceFromStart arr stop) -> In x arr.
Proof.
  unfold sliceFromStart. destruct (stop <? 0)%Z; apply in_firstn.
Qed.

Lemma parseAll_length {host : Host} (coins : list Coin) (refs : list ObjectRef) :
  parseAll coins = Done refs -> length refs = length coins.
Proof.
  revert refs. induction coins as [| coin rest IH]; intros refs H; cbn [parseAll] in H.
  - inversion H. reflexivity.
  - destruct (parseObjectRef (coinObjectId coin) (digest coin) (version coin));
      [| discriminate].
    destruct (parseAll rest) as [refs' |]; [| discriminate].
    inversion H. simpl. f_equal. now apply IH.
Qed.

(** X18.  The coins chosen to pay for gas are coins the client listed, none
    of them is an owned-object input of the block, and for a positive
    [maxGasObjects] there are at most [maxGasObjects - 1] of them; with
    [maxGasObjects] equal to one none is chosen, whatever the client
    lists.  With [maxGasObjects] equal to zero the end of the slice is
    negative, and all the eligible coins but the last are chosen. *)
Theorem paymentCoins_selection {host : Host} (blockData : BlockData)
  (options : GasPaymentOptions) (coins : list Coin) :
  (forall coin,
      In coin (paymentCoins blockData options coins) ->
      In coin coins
      /\ forall input objectId,
           In input (inputs blockData) ->
           immOrOwnedObjectId input = Some objectId ->
           coinObjectId coin <> objectId)
  /\ ((1 <= maxGasObjects options)%Z ->
      (Z.of_nat (length (paymentCoins blockData options coins))
       <= maxGasObjects options - 1)%Z)
  /\ (maxGasObjects options = 1%Z -> paymentCoins blockData options coins = [])
  /\ (maxGasObjects options = 0%Z ->
      paymentCoins blockData options coins
      = removelast (filter (fun coin => negb (matchesInput blockData coin)) coins)).
Proof.
  unfold paymentCoins. refine (conj _ (conj _ (conj _ _))).
  - intros coin Hcoin. apply sliceFromStart_incl in Hcoin.
    apply filter_In in Hcoin. destruct Hcoin as [Hin Hfree].
    split; [exact Hin |].
    intros input objectId Hinput Hid Heq.
    apply negb_true_iff in Hfree.
    assert (Hmatch : matchesInput blockData coin = true).
    { unfold matchesInput. apply existsb_exists. exists input.
      split; [exact Hinput |]. rewrite Hid. now apply String.eqb_eq. }
    congruence.
  - intros Hmax. apply sliceFromStart_length. lia.
  - intros ->. reflexivity.
  - intros ->. unfold sliceFromStart. cbn [Z.sub Z.add Z.opp Z.ltb Z.compare].
    rewrite removelast_firstn_len. f_equal. lia.
Qed.

Lemma paymentCoins_selection_witness :
  (Z.of_nat (length (@paymentCoins sampleHost sampleBlock (mkGasPaymentOptions 2)
                       [sampleCoin "0xa"; sampleCoin "0xb"; sampleCoin "0xc"]))
   <= 2 - 1)%Z
  /\ @paymentCoins sampleHost sampleBlock (mkGasPaymentOptions 1)
       [sampleCoin "0xa"; sampleCoin "0xb"; sampleCoin "0xc"] = []
  /\ @paymentCoins sampleHost sampleBlock (mkGasPaymentOptions 0)
       [sampleCoin "0xa"; sampleCoin "0xb"; sampleCoin "0xc"] = [sampleCoin "0xa"].
Proof.
  refine (conj _ (conj _ _)).
  - apply (proj1 (proj2 (@paymentCoins_selection sampleHost sampleBlock
                           (mkGasPaymentOptions 2)
                           [sampleCoin "0xa"; sampleCoin "0xb"; sampleCoin "0xc"]))).
    simpl. lia.
  - apply (proj1 (proj2 (proj2 (@paymentCoins_selection sampleHost sampleBlock
                                  (mkGasPaymentOptions 1)
                                  [sampleCoin "0xa"; sampleCoin "0xb"; sampleCoin "0xc"])))).
    reflexivity.
  - rewrite (proj2 (proj2 (proj2 (@paymentCoins_selection sampleHost sampleBlock
                                    (mkGasPaymentOptions 0)
                                    [sampleCoin "0xa"; sampleCoin "0xb"; sampleCoin "0xc"])))
               eq_refl).
    reflexivity.
Defined.

(** X19.  After the hooks, a payment that is already set is kept as it is,
    an empty one too, and the client is not asked for coins; the method
    rejects when that payment has more than [maxGasObjects] objects.  When no
    payment is set, the coins of the gas owner (the owner of the gas
    configuration, or else the sender) are asked for: the method rejects with
    "no valid gas coins" when none is chosen, and otherwise sets the payment
    to the chosen coins, parsed, one reference per coin. *)
Theorem setGasPayment_outcome {host : Host}
  (plugins : list TransactionBlockPlugin.t) (getClient : SuiClient)
  (options : GasPaymentOptions) (blockData hooked : BlockData) :
  runHook TransactionBlockPlugin.setGasPayment plugins options blockData
  = (Done tt, hooked) ->
  (forall refs,
      payment (gasConfig hooked) = Some refs ->
      ((Z.of_nat (length refs) <= maxGasObjects options)%Z ->
       setGasPayment plugins getClient options blockData = (Done tt, hooked))
      /\ ((Z.of_nat (length refs) > maxGasObjects options)%Z ->
          setGasPayment plugins getClient options blockData
          = (Failed (PaymentObjectsExceedMaximum (maxGasObjects options)), hooked)))
  /\ (forall coins,
      payment (gasConfig hooked) = None ->
      getCoins getClient
        (match owner (gasConfig hooked) with
         | Some o => Some o
         | None => sender hooked
         end) SUI_TYPE_ARG = Done coins ->
      (paymentCoins hooked options coins = [] ->
       setGasPayment plugins getClient options blockData = (Failed NoValidGasCoins, hooked))
      /\ (forall refs,
          paymentCoins hooked options coins <> [] ->
          parseAll (paymentCoins hooked options coins) = Done refs ->
          setGasPayment plugins getClient options blockData
          = (Done tt, withPayment hooked refs)
          /\ length refs = length (paymentCoins hooked options coins))).
Proof.
  intros Hhooks. unfold setGasPayment, andThen. rewrite Hhooks. split.
  - intros refs ->. split; intros Hlen.
    + destruct (Z.gtb_spec (Z.of_nat (length refs)) (maxGasObjects options));
        [lia | reflexivity].
    + destruct (Z.gtb_spec (Z.of_nat (length refs)) (maxGasObjects options));
        [reflexivity | lia].
  - intros coins -> Hcoins. unfold await. rewrite Hcoins. split.
    + intros ->. reflexivity.
    + intros refs Hchosen Hrefs.
      destruct (paymentCoins hooked options coins) as [| coin rest] eqn:Hpay;
        [contradiction |].
      rewrite Hrefs. split; [reflexivity |]. now apply parseAll_length.
Qed.

Lemma setGasPayment_outcome_witness :
  @setGasPayment sampleHost [] sampleClient (mkGasPaymentOptions 256) sampleBlock
  = (Done tt, @withPayment sampleHost sampleBlock [sampleCoin "0xa"; sampleCoin "0xc"])
  /\ @setGasPayment sampleHost [] sampleClient (mkGasPaymentOptions 1) sampleBlock
     = (Failed NoValidGasCoins, sampleBlock).
Proof.
  split.
  - apply (proj2 (proj2 (@setGasPayment_outcome sampleHost [] sampleClient
                           (mkGasPaymentOptions 256) sampleBlock sampleBlock eq_refl)
                    [sampleCoin "0xa"; sampleCoin "0xb"; sampleCoin "0xc"]
                    eq_refl eq_refl)
             [sampleCoin "0xa"; sampleCoin "0xc"]).
    + discriminate.
    + reflexivity.
  - apply (proj1 (proj2 (@setGasPayment_outcome sampleHost [] sampleClient
                           (mkGasPaymentOptions 1) sampleBlock sampleBlock eq_refl)
                    [sampleCoin "0xa"; sampleCoin "0xb"; sampleCoin "0xc"]
                    eq_refl eq_refl)).
    reflexivity.
Defined.

(** ** Gas price and gas budget *)

(** X20.  After the hooks, a price that is set and truthy is kept and the
    client is not asked; otherwise the price becomes the text of the
    reference gas price of the client, and a failure of that call is the
    failure of the method, with the price left unset.  Where the text of a
    number is truthy, the method run again without plugins changes nothing,
    whatever the client then answers. *)
Theorem setGasPrice_outcome {host : Host}
  (plugins : list TransactionBlockPlugin.t) (getClient : SuiClient)
  (blockData hooked : BlockData) :
  runHook TransactionBlockPlugin.setGasPrice plugins tt blockData = (Done tt, hooked) ->
  (isTruthy (price (gasConfig hooked)) = true ->
   setGasPrice plugins getClient blockData = (Done tt, hooked))
  /\ (isTruthy (price (gasConfig hooked)) = false ->
      (forall referencePrice,
          getReferenceGasPrice getClient = Done referencePrice ->
          setGasPrice plugins getClient blockData
          = (Done tt, withPrice hooked (String_ referencePrice)))
      /\ (forall f,
          getReferenceGasPrice getClient = Failed f ->
          setGasPrice plugins getClient blockData = (Failed f, hooked)))
  /\ ((forall n, truthy (String_ n) = true) ->
      forall after otherClient,
        setGasPrice plugins getClient blockData = (Done tt, after) ->
        setGasPrice [] otherClient after = (Done tt, after)).
Proof.
  intros Hhooks.
  assert (Hcases :
            setGasPrice plugins getClient blockData
            = if isTruthy (price (gasConfig hooked))
              then (Done tt, hooked)
              else match getReferenceGasPrice getClient with
                   | Done referencePrice =>
                       (Done tt, withPrice hooked (String_ referencePrice))
                   | Failed f => (Failed f, hooked)
                   end).
  { unfold setGasPrice, andThen, await, resolve. rewrite Hhooks.
    destruct (isTruthy (price (gasConfig hooked))); [reflexivity |].
    destruct (getReferenceGasPrice getClient); reflexivity. }
  refine (conj _ (conj _ _)).
  - intros Htruthy. now rewrite Hcases, Htruthy.
  - intros Hfalsy. rewrite Hcases, Hfalsy.
    split; [intros referencePrice -> | intros f ->]; reflexivity.
  - intros Htext after otherClient Hafter. rewrite Hcases in Hafter.
    assert (Hset : isTruthy (price (gasConfig after)) = true).
    { destruct (isTruthy (price (gasConfig hooked))) eqn:Hprice.
      - inversion Hafter; subst. exact Hprice.
      - destruct (getReferenceGasPrice getClient); inversion Hafter; subst.
        simpl. apply Htext. }
    unfold setGasPrice, andThen, resolve. cbn [runHook]. unfold resolve.
    now rewrite Hset.
Qed.

Lemma setGasPrice_outcome_witness :
  @setGasPrice sampleHost [] sampleClient sampleBlock
  = (Done tt, @withPrice sampleHost sampleBlock 750%Z)
  /\ @setGasPrice sampleHost [samplePricePlugin] sampleClient sampleBlock
     = (Done tt, @withPrice sampleHost sampleBlock 5%Z)
  /\ @setGasPrice sampleHost [] sampleClient (@withPrice sampleHost sampleBlock 750%Z)
     = (Done tt, @withPrice sampleHost sampleBlock 750%Z).
Proof.
  refine (conj _ (conj _ _)).
  - apply (proj1 (proj1 (proj2 (@setGasPrice_outcome sampleHost [] sampleClient
                                  sampleBlock sampleBlock eq_refl)) eq_refl)
             750%Z eq_refl).
  - apply (proj1 (@setGasPrice_outcome sampleHost [samplePricePlugin] sampleClient
                    sampleBlock (@withPrice sampleHost sampleBlock 5%Z) eq_refl)).
    reflexivity.
  - apply (proj2 (proj2 (@setGasPrice_outcome sampleHost [] sampleClient
                           sampleBlock sampleBlock eq_refl))
             (fun _ => eq_refl) (@withPrice sampleHost sampleBlock 750%Z) sampleClient).
    reflexivity.
Defined.

(** X21.  After the hooks, a budget that is set and truthy is kept, and the
    block is neither built nor dry-run.  Otherwise the block is built and
    dry-run: a dry run that did not succeed rejects the method and leaves the
    budget unset; one that succeeded sets the budget to the text of the
    larger of the computation cost plus the safe overhead (a thousand times
    the gas price, the price counting as one while it is unset) and that sum
    plus the storage cost minus the storage rebate.  So the budget never
    falls below the computation cost with its overhead, however large the
    rebate. *)
Theorem setGasBudget_outcome {host : Host}
  (plugins : list TransactionBlockPlugin.t) (getClient : SuiClient)
  (build : BlockData -> Z -> GasDataOverrides -> Try Bytes)
  (options : GasBudgetOptions) (blockData hooked : BlockData) :
  runHook TransactionBlockPlugin.setGasBudget plugins options blockData
  = (Done tt, hooked) ->
  (isTruthy (budget (gasConfig hooked)) = true ->
   setGasBudget plugins getClient build options blockData = (Done tt, hooked))
  /\ (forall transactionBlock dryRunResult,
      isTruthy (budget (gasConfig hooked)) = false ->
      build hooked (maxTxSizeBytes options)
        (mkGasDataOverrides (String_ (maxTxGas options)) []) = Done transactionBlock ->
      dryRunTransactionBlock getClient transactionBlock = Done dryRunResult ->
      (status dryRunResult <> "success" ->
       setGasBudget plugins getClient build options blockData
       = (Failed (DryRunFailed (error dryRunResult)), hooked))
      /\ (forall gasPrice computation storage rebate,
          status dryRunResult = "success" ->
          (if isTruthy (price (gasConfig hooked))
           then exists v, price (gasConfig hooked) = Some v /\ BigInt v = Done gasPrice
           else gasPrice = 1%Z) ->
          BigInt (computationCost dryRunResult) = Done computation ->
          BigInt (storageCost dryRunResult) = Done storage ->
          BigInt (storageRebate dryRunResult) = Done rebate ->
          let base := (computation + GAS_SAFE_OVERHEAD * gasPrice)%Z in
          setGasBudget plugins getClient build options blockData
          = (Done tt, withBudget hooked (String_ (Z.max base (base + storage - rebate))))
          /\ (base <= Z.max base (base + storage - rebate))%Z)).
Proof.
  intros Hhooks. unfold setGasBudget, andThen, await, resolve, reject.
  rewrite Hhooks. split.
  - intros ->. reflexivity.
  - intros transactionBlock dryRunResult -> Hbuild Hdry. cbn [negb].
    rewrite Hbuild, Hdry. split.
    + intros Hstatus. apply String.eqb_neq in Hstatus. now rewrite Hstatus.
    + intros gasPrice computation storage rebate Hstatus Hprice Hc Hs Hr.
      set (base := (computation + GAS_SAFE_OVERHEAD * gasPrice)%Z).
      rewrite Hstatus. cbn [String.eqb Ascii.eqb Bool.eqb negb].
      split; [| lia].
      assert (Hbudget : budgetFromDryRun hooked dryRunResult
                        = Done (String_ (Z.max base (base + storage - rebate)))).
      { unfold budgetFromDryRun.
        assert (Hgas : (if isTruthy (price (gasConfig hooked))
                        then match price (gasConfig hooked) with
                             | Some v => BigInt v
                             | None => Done 1%Z
                             end
                        else Done 1%Z) = Done gasPrice).
        { destruct (isTruthy (price (gasConfig hooked))).
          - destruct Hprice as [v [-> Hv]]. exact Hv.
          - now subst gasPrice. }
        rewrite Hgas, Hc, Hs, Hr. f_equal. f_equal. subst base.
        destruct (Z.gtb_spec (computation + GAS_SAFE_OVERHEAD * gasPrice + storage - rebate)
                    (computation + GAS_SAFE_OVERHEAD * gasPrice)); lia. }
      now rewrite Hbudget.
Qed.

Lemma setGasBudget_outcome_witness :
  @setGasBudget sampleHost [] sampleClient sampleBuild (mkGasBudgetOptions 50000 1000)
    sampleBlock
  = (Done tt, @withBudget sampleHost sampleBlock 2100%Z).
Proof.
  apply (proj2 (proj2 (@setGasBudget_outcome sampleHost [] sampleClient sampleBuild
                         (mkGasBudgetOptions 50000 1000) sampleBlock sampleBlock eq_refl)
                  tt (@mkDryRunResult sampleHost "success" None 1000%Z 300%Z 200%Z)
                  eq_refl eq_refl eq_refl)
           1%Z 1000%Z 300%Z 200%Z eq_refl eq_refl eq_refl eq_refl eq_refl).
Defined.
